(** * The articles service: cache-aside reads, ownership and invalidation

    A shallow embedding of [ArticlesService] (articles.service.ts) and of the
    two collaborators it talks to: the cache manager (a key-value store with a
    time-to-live per entry) and the TypeORM repository of articles backed by
    PostgreSQL.  Every method of the service is an [async] function whose
    body is a sequence of awaited calls; it is embedded as a function from a
    world to an outcome and a new world. *)

From stdpp Require Import gmap strings list fin_maps pretty.
From Stdlib Require Import ZArith Lia Ascii Sorted.

Local Open Scope Z_scope.
Local Open Scope string_scope.

(** ** JavaScript values and [JSON.stringify] *)

(** The values a query object carries.  [JUndefined] is the value of a
    property that is present but unset. *)
Inductive JsValue :=
| JUndefined
| JNumber (n : Z)
| JString (s : string).

(** A plain object: its own enumerable properties in insertion order. *)
Definition JsObject := list (string * JsValue).

Definition dquote : ascii := "034"%char.
Definition backslash : ascii := "092"%char.

Definition hex_digit (n : nat) : ascii :=
  default "0"%char (String.get n "0123456789abcdef").

(** QuoteJSONString on one code unit: the two-character escapes, [\u00XX]
    for the other control characters, the character itself otherwise. *)
Definition json_escape (c : ascii) : string :=
  let n := nat_of_ascii c in
  if decide (c = dquote) then String backslash (String dquote "")
  else if decide (c = backslash) then String backslash (String backslash "")
  else if decide (n = 8)%nat then String backslash "b"
  else if decide (n = 9)%nat then String backslash "t"
  else if decide (n = 10)%nat then String backslash "n"
  else if decide (n = 12)%nat then String backslash "f"
  else if decide (n = 13)%nat then String backslash "r"
  else if decide (n < 32)%nat then
    String backslash ("u00" +:+ String (hex_digit (n / 16)) (String (hex_digit (n mod 16)) ""))
  else String c "".

Fixpoint json_escape_string (s : string) : string :=
  match s with
  | EmptyString => ""
  | String c s' => json_escape c +:+ json_escape_string s'
  end.

Definition json_quote (s : string) : string :=
  String dquote (json_escape_string s +:+ String dquote "").

(** The members of an object: a property whose value is [undefined] is left
    out, the others come in insertion order.  A number is an integer and is
    written in decimal (JavaScript does so below 10^21). *)
Fixpoint json_members (o : JsObject) : list string :=
  match o with
  | [] => []
  | (_, JUndefined) :: o' => json_members o'
  | (k, JNumber n) :: o' => (json_quote k +:+ ":" +:+ pretty n) :: json_members o'
  | (k, JString s) :: o' => (json_quote k +:+ ":" +:+ json_quote s) :: json_members o'
  end.

Fixpoint join_with (sep : string) (l : list string) : string :=
  match l with
  | [] => ""
  | [x] => x
  | x :: l' => x +:+ sep +:+ join_with sep l'
  end.

Definition JSON_stringify (o : JsObject) : string :=
  "{" +:+ join_with "," (json_members o) +:+ "}".

(** ** The query object of [findAll] *)

(** [QueryArticlesDto]: six optional properties.  An entry is a property the
    caller supplied; [None] is a supplied property holding [undefined].  The
    list keeps the order in which the properties were set, and an object
    holds each property once. *)
Inductive QueryEntry :=
| QPage (v : option Z)
| QLimit (v : option Z)
| QAuthorId (v : option string)
| QFromDate (v : option string)
| QToDate (v : option string)
| QSearch (v : option string).

Definition QueryArticlesDto := list QueryEntry.

Definition js_number (v : option Z) : JsValue :=
  match v with Some n => JNumber n | None => JUndefined end.

Definition js_string (v : option string) : JsValue :=
  match v with Some s => JString s | None => JUndefined end.

Definition entry_property (e : QueryEntry) : string * JsValue :=
  match e with
  | QPage v => ("page", js_number v)
  | QLimit v => ("limit", js_number v)
  | QAuthorId v => ("authorId", js_string v)
  | QFromDate v => ("fromDate", js_string v)
  | QToDate v => ("toDate", js_string v)
  | QSearch v => ("search", js_string v)
  end.

Definition query_object (query : QueryArticlesDto) : JsObject :=
  map entry_property query.

(** Property reads: [query.page] and the like; [None] is [undefined]. *)
Fixpoint query_page (query : QueryArticlesDto) : option Z :=
  match query with
  | [] => None
  | QPage v :: _ => v
  | _ :: q => query_page q
  end.

Fixpoint query_limit (query : QueryArticlesDto) : option Z :=
  match query with
  | [] => None
  | QLimit v :: _ => v
  | _ :: q => query_limit q
  end.

Fixpoint query_authorId (query : QueryArticlesDto) : option string :=
  match query with
  | [] => None
  | QAuthorId v :: _ => v
  | _ :: q => query_authorId q
  end.

Fixpoint query_fromDate (query : QueryArticlesDto) : option string :=
  match query with
  | [] => None
  | QFromDate v :: _ => v
  | _ :: q => query_fromDate q
  end.

Fixpoint query_toDate (query : QueryArticlesDto) : option string :=
  match query with
  | [] => None
  | QToDate v :: _ => v
  | _ :: q => query_toDate q
  end.

Fixpoint query_search (query : QueryArticlesDto) : option string :=
  match query with
  | [] => None
  | QSearch v :: _ => v
  | _ :: q => query_search q
  end.

(** [const { page = 1, limit = 10, ... } = query]: a default replaces
    [undefined]. *)
Definition page_of (query : QueryArticlesDto) : Z := default 1 (query_page query).
Definition limit_of (query : QueryArticlesDto) : Z := default 10 (query_limit query).

(** [`articles:${JSON.stringify(query)}`] *)
Definition list_cache_key (query : QueryArticlesDto) : string :=
  "articles:" +:+ JSON_stringify (query_object query).

(** [`article:${id}`] *)
Definition article_cache_key (id : string) : string := "article:" +:+ id.



(** ** Entities *)

(** A row of the [users] table. *)
Record User := {
  user_id : string;
  email : string;
  password : string;
  firstName : string;
  lastName : string;
  user_createdAt : Z;
  user_updatedAt : Z
}.

(** A row of the [articles] table; timestamps are instants on the integer
    time line. *)
Record ArticleRow := {
  id : string;
  title : string;
  description : string;
  publicationDate : Z;
  authorId : string;
  createdAt : Z;
  updatedAt : Z
}.

(** The [Article] entity: the columns and the [author] relation, which is
    loaded only by a query that joins it. *)
Record Article := {
  columns : ArticleRow;
  author : option User
}.

(** The object [findAll] builds and caches. *)
Record PageResult := {
  data : list Article;
  total : Z;
  page : Z;
  limit : Z;
  totalPages : Z
}.

(** What the cache holds and what the read operations hand back: the cache
    manager is untyped, [findOne] and [findAll] cast what they get from it. *)
Inductive Payload :=
| AnArticle (a : Article)
| APage (r : PageResult).

Record CreateArticleDto := {
  new_title : string;
  new_description : string;
  new_publicationDate : string
}.

(** [UpdateArticleDto]: every property optional; as for the query, an entry
    is a supplied property and [None] is [undefined]. *)
Inductive UpdateEntry :=
| UTitle (v : option string)
| UDescription (v : option string)
| UPublicationDate (v : option string).

Definition UpdateArticleDto := list UpdateEntry.

Definition entry_value (e : UpdateEntry) : option string :=
  match e with
  | UTitle v | UDescription v | UPublicationDate v => v
  end.

(** ** Failures *)

(** The three HTTP exceptions the service throws, with their messages, and
    the rejection of an awaited call by the cache or by the store. *)
Inductive Exception :=
| NotFoundException (message : string)
| ForbiddenException (message : string)
| BadRequestException (message : string)
| CacheError
| StoreError.

Inductive Result (A : Type) :=
| Ok (a : A)
| Throw (e : Exception).
Arguments Ok {A} a.
Arguments Throw {A} e.

(** ** The world of one request *)

(** The conditions a query builder collects with [andWhere]. *)
Inductive Condition :=
| AuthorIs (authorId : string)
| PublishedBetween (fromDate toDate : string)
| PublishedFrom (fromDate : string)
| PublishedUntil (toDate : string)
| TitleOrDescriptionILike (pattern : string).

(** The calls issued to the two collaborators, oldest first. *)
Inductive Event :=
| CacheGet (key : string)
| CacheSet (key : string) (value : Payload) (ttl : Z)
| CacheDel (key : string)
| RepoFindOne (id : string)
| RepoSave (id : string)
| RepoRemove (id : string)
| RepoGetManyAndCount (conditions : list Condition) (skip take : Z).

(** How the environment answers an awaited call.  [Stale] is a store that
    answers from a snapshot which misses the row asked for (a lagging
    replica, a concurrent delete): a point read comes back empty; every
    other call is served as usual. *)
Inductive Outcome :=
| Served
| Rejected
| Stale.

(** The state a request runs in: the two tables, the cache (value and
    time-to-live in milliseconds per key), the store's clock and its
    generator of identifiers, the answers the environment will give to the
    coming calls ([Served] once the list is used up), and the calls made so
    far.  Expiry is the cache's own business and happens between requests.

    [findAll] orders by [publicationDate] alone, so the order of two rows
    of the same date is the store's choice: [tie_break r x] tells whether
    the store hands out [r] before [x] when their dates are equal.  It is
    any relation at all; no operation of the service reads or changes it. *)
Record World := {
  articles : list ArticleRow;
  users : list User;
  cache : gmap string (Payload * Z);
  clock : Z;
  generated : nat;
  schedule : list Outcome;
  trace : list Event;
  tie_break : ArticleRow -> ArticleRow -> bool
}.

Definition with_articles (rows : list ArticleRow) (w : World) : World :=
  {| articles := rows; users := users w; cache := cache w; clock := clock w;
     generated := generated w; schedule := schedule w; trace := trace w;
     tie_break := tie_break w |}.

Definition with_cache (c : gmap string (Payload * Z)) (w : World) : World :=
  {| articles := articles w; users := users w; cache := c; clock := clock w;
     generated := generated w; schedule := schedule w; trace := trace w;
     tie_break := tie_break w |}.

Definition with_clock (t : Z) (w : World) : World :=
  {| articles := articles w; users := users w; cache := cache w; clock := t;
     generated := generated w; schedule := schedule w; trace := trace w;
     tie_break := tie_break w |}.

Definition with_generated (n : nat) (w : World) : World :=
  {| articles := articles w; users := users w; cache := cache w; clock := clock w;
     generated := n; schedule := schedule w; trace := trace w;
     tie_break := tie_break w |}.

Definition with_schedule (s : list Outcome) (w : World) : World :=
  {| articles := articles w; users := users w; cache := cache w; clock := clock w;
     generated := generated w; schedule := s; trace := trace w;
     tie_break := tie_break w |}.

Definition with_trace (t : list Event) (w : World) : World :=
  {| articles := articles w; users := users w; cache := cache w; clock := clock w;
     generated := generated w; schedule := schedule w; trace := t;
     tie_break := tie_break w |}.

(** An asynchronous computation: it ends with a value or an exception, and
    the effects it had before an exception stay. *)
Definition Async (A : Type) : Type := World -> Result A * World.

Definition ret {A} (a : A) : Async A := fun w => (Ok a, w).

Definition throw {A} (e : Exception) : Async A := fun w => (Throw e, w).

Definition bind {A B} (m : Async A) (k : A -> Async B) : Async B :=
  fun w =>
    match m w with
    | (Ok a, w') => k a w'
    | (Throw e, w') => (Throw e, w')
    end.

Notation "x <- m ;; k" := (bind m (fun x => k))
  (at level 100, m at next level, right associativity).
Notation "m ;;; k" := (bind m (fun _ => k))
  (at level 100, right associativity).

(** Every awaited call is recorded and takes the next answer of the
    environment. *)
Definition call (e : Event) : Async Outcome :=
  fun w =>
    (Ok (hd Served (schedule w)),
     with_schedule (tl (schedule w)) (with_trace (trace w ++ [e]) w)).

(** ** The cache manager *)

Definition TTL : Z := 300000.

(** [cacheManager.get(key)]: the value under the key, [undefined] when there
    is none. *)
Definition cache_get (key : string) : Async (option Payload) :=
  o <- call (CacheGet key) ;;
  match o with
  | Rejected => throw CacheError
  | _ => fun w => (Ok (fst <$> cache w !! key), w)
  end.

(** [cacheManager.set(key, value, ttl)] *)
Definition cache_set (key : string) (value : Payload) (ttl : Z) : Async unit :=
  o <- call (CacheSet key value ttl) ;;
  match o with
  | Rejected => throw CacheError
  | _ => fun w => (Ok tt, with_cache (<[key := (value, ttl)]> (cache w)) w)
  end.

(** [cacheManager.del(key)] *)
Definition cache_del (key : string) : Async unit :=
  o <- call (CacheDel key) ;;
  match o with
  | Rejected => throw CacheError
  | _ => fun w => (Ok tt, with_cache (delete key (cache w)) w)
  end.

(** ** PostgreSQL's [LIKE] and [ILIKE] *)

Definition percent : ascii := "037"%char.
Definition underscore : ascii := "095"%char.

(** [text LIKE pattern]: [%] stands for any run of characters, [_] for any
    one character, and a backslash takes the character after it literally.
    A pattern that ends in a lone backslash is an error in PostgreSQL; no
    pattern built by [findAll] does, since each ends in [%]. *)
Fixpoint like (pattern text : string) {struct pattern} : bool :=
  match pattern with
  | EmptyString => match text with EmptyString => true | _ => false end
  | String c rest =>
    if decide (c = percent) then
      (fix any (t : string) : bool :=
         like rest t || match t with EmptyString => false | String _ t' => any t' end) text
    else if decide (c = underscore) then
      match text with EmptyString => false | String _ t' => like rest t' end
    else if decide (c = backslash) then
      match rest with
      | EmptyString => false
      | String e rest' =>
        match text with
        | EmptyString => false
        | String x t' => bool_decide (x = e) && like rest' t'
        end
      end
    else
      match text with
      | EmptyString => false
      | String x t' => bool_decide (x = c) && like rest t'
      end
  end.

Definition lower (c : ascii) : ascii :=
  let n := nat_of_ascii c in
  if decide (65 <= n <= 90)%nat then ascii_of_nat (n + 32) else c.

Fixpoint lowercase (s : string) : string :=
  match s with
  | EmptyString => ""
  | String c s' => String (lower c) (lowercase s')
  end.

(** [text ILIKE pattern]: [LIKE] without regard to letter case.  The letters
    folded are those of ASCII; how the store folds the letters beyond ASCII
    depends on its locale, which the repository does not set. *)
Definition ilike (text pattern : string) : bool :=
  like (lowercase pattern) (lowercase text).



(** ** The repository of articles *)

(** [Math.ceil(a / b)] on integers, for a divisor other than zero (a zero
    divisor gives [Infinity] or [NaN] in JavaScript, which no integer
    stands for; the query's [limit] is at least 1). *)
Definition ceil_div (a b : Z) : Z := - ((- a) / b).

Definition find_row (key : string) (rows : list ArticleRow) : option ArticleRow :=
  List.find (fun r => bool_decide (id r = key)) rows.

Definition find_user (key : string) (us : list User) : option User :=
  List.find (fun u => bool_decide (user_id u = key)) us.

(** The left join of a row with its author. *)
Definition with_author (us : list User) (r : ArticleRow) : Article :=
  {| columns := r; author := find_user (authorId r) us |}.

(** [ORDER BY publicationDate DESC]: a row goes in front of the first row
    that is older, or that is of the same date and comes after it in the
    store's order of ties. *)
Fixpoint insert_desc (before : ArticleRow -> ArticleRow -> bool)
    (r : ArticleRow) (l : list ArticleRow) : list ArticleRow :=
  match l with
  | [] => [r]
  | x :: l' =>
    if (publicationDate x <? publicationDate r)%Z
       || ((publicationDate x =? publicationDate r)%Z && before r x)
    then r :: x :: l'
    else x :: insert_desc before r l'
  end.

Definition order_by_date_desc (before : ArticleRow -> ArticleRow -> bool)
    (l : list ArticleRow) : list ArticleRow :=
  foldr (insert_desc before) [] l.

(** The identifier the store gives to the n-th generated row. *)
Definition generated_id (n : nat) : string := "article-" +:+ pretty n.

(** The entity [repository.create] builds from the request: no identifier
    yet. *)
Record ArticleDraft := {
  draft_title : string;
  draft_description : string;
  draft_publicationDate : string;
  draft_authorId : string
}.

Definition repo_create (dto : CreateArticleDto) (userId : string) : ArticleDraft :=
  {| draft_title := new_title dto;
     draft_description := new_description dto;
     draft_publicationDate := new_publicationDate dto;
     draft_authorId := userId |}.

Definition replace_row (r : ArticleRow) (rows : list ArticleRow) : list ArticleRow :=
  map (fun x => if bool_decide (id x = id r) then r else x) rows.

Definition delete_row (key : string) (rows : list ArticleRow) : list ArticleRow :=
  List.filter (fun x => negb (bool_decide (id x = key))) rows.

(** The row with a new [updatedAt]. *)
Definition stamped (t : Z) (c : ArticleRow) : ArticleRow :=
  {| id := id c; title := title c; description := description c;
     publicationDate := publicationDate c; authorId := authorId c;
     createdAt := createdAt c; updatedAt := t |}.

(** ** The entity in memory *)

(** A [publicationDate] in memory: the [Date] the store loaded, or the text
    of the request, which [Object.assign] copies as it is. *)
Inductive DateValue :=
| DateObject (instant : Z)
| DateText (text : string).

(** The [Article] object [update] assigns to and hands to [save]: each of
    the three properties a request can set holds a value or [undefined]. *)
Record Entity := {
  entity_id : string;
  entity_title : option string;
  entity_description : option string;
  entity_publicationDate : option DateValue;
  entity_authorId : string;
  entity_author : option User;
  entity_createdAt : Z;
  entity_updatedAt : Z
}.

(** The object [findOne] handed back, before anything is assigned to it. *)
Definition of_article (a : Article) : Entity :=
  {| entity_id := id (columns a);
     entity_title := Some (title (columns a));
     entity_description := Some (description (columns a));
     entity_publicationDate := Some (DateObject (publicationDate (columns a)));
     entity_authorId := authorId (columns a);
     entity_author := author a;
     entity_createdAt := createdAt (columns a);
     entity_updatedAt := updatedAt (columns a) |}.

(** [Object.assign(article, updateArticleDto)] copies every own property of
    the request, one that holds [undefined] too. *)
Definition assign_entry (e : Entity) (u : UpdateEntry) : Entity :=
  match u with
  | UTitle v =>
    {| entity_id := entity_id e; entity_title := v;
       entity_description := entity_description e;
       entity_publicationDate := entity_publicationDate e;
       entity_authorId := entity_authorId e; entity_author := entity_author e;
       entity_createdAt := entity_createdAt e; entity_updatedAt := entity_updatedAt e |}
  | UDescription v =>
    {| entity_id := entity_id e; entity_title := entity_title e;
       entity_description := v;
       entity_publicationDate := entity_publicationDate e;
       entity_authorId := entity_authorId e; entity_author := entity_author e;
       entity_createdAt := entity_createdAt e; entity_updatedAt := entity_updatedAt e |}
  | UPublicationDate v =>
    {| entity_id := entity_id e; entity_title := entity_title e;
       entity_description := entity_description e;
       entity_publicationDate := DateText <$> v;
       entity_authorId := entity_authorId e; entity_author := entity_author e;
       entity_createdAt := entity_createdAt e; entity_updatedAt := entity_updatedAt e |}
  end.

Definition Object_assign (a : Article) (dto : UpdateArticleDto) : Entity :=
  foldl assign_entry (of_article a) dto.

(** The entity with the [updatedAt] the store gave it. *)
Definition restamped (t : Z) (e : Entity) : Entity :=
  {| entity_id := entity_id e; entity_title := entity_title e;
     entity_description := entity_description e;
     entity_publicationDate := entity_publicationDate e;
     entity_authorId := entity_authorId e; entity_author := entity_author e;
     entity_createdAt := entity_createdAt e; entity_updatedAt := t |}.

#[global] Instance ArticleRow_eq_dec : EqDecision ArticleRow.
Proof. solve_decision. Defined.

Section Service.

(** The store's reading of a date literal as a [TIMESTAMP]. *)
Variable timestamp_of : string -> Z.

Definition instant_of (d : DateValue) : Z :=
  match d with
  | DateObject t => t
  | DateText s => timestamp_of s
  end.

(** What [save] makes of the row [stored] for an entity of its identifier:
    the columns take the values the entity holds; a property holding
    [undefined] is left out of the statement, so its column stays. *)
Definition written_row (e : Entity) (stored : ArticleRow) : ArticleRow :=
  {| id := id stored;
     title := default (title stored) (entity_title e);
     description := default (description stored) (entity_description e);
     publicationDate :=
       default (publicationDate stored) (instant_of <$> entity_publicationDate e);
     authorId := entity_authorId e;
     createdAt := entity_createdAt e;
     updatedAt := updatedAt stored |}.

(** The row [save] inserts for an entity that has none: every column needs a
    value, the table has no default for the three texts. *)
Definition new_row (e : Entity) (now : Z) : option ArticleRow :=
  match entity_title e, entity_description e, entity_publicationDate e with
  | Some t, Some d, Some p =>
    Some {| id := entity_id e; title := t; description := d;
            publicationDate := instant_of p; authorId := entity_authorId e;
            createdAt := entity_createdAt e; updatedAt := now |}
  | _, _, _ => None
  end.

(** One [andWhere] condition on one row. *)
Definition holds (c : Condition) (r : ArticleRow) : bool :=
  match c with
  | AuthorIs a => bool_decide (authorId r = a)
  | PublishedBetween f t =>
    (timestamp_of f <=? publicationDate r)%Z && (publicationDate r <=? timestamp_of t)%Z
  | PublishedFrom f => (timestamp_of f <=? publicationDate r)%Z
  | PublishedUntil t => (publicationDate r <=? timestamp_of t)%Z
  | TitleOrDescriptionILike p => ilike (title r) p || ilike (description r) p
  end.

Definition selected (conditions : list Condition) (r : ArticleRow) : bool :=
  forallb (fun c => holds c r) conditions.

(** [repository.findOne({ where: { id }, relations: ['author'] })] *)
Definition repo_findOne (key : string) : Async (option Article) :=
  o <- call (RepoFindOne key) ;;
  match o with
  | Rejected => throw StoreError
  | Stale => ret None
  | Served => fun w => (Ok (with_author (users w) <$> find_row key (articles w)), w)
  end.

(** [repository.save] of an entity without identifier: an INSERT; the store
    generates the identifier and stamps the row, and refuses an identifier
    that is taken. *)
Definition repo_insert (draft : ArticleDraft) : Async Article :=
  fun w =>
    let row := {| id := generated_id (generated w);
                  title := draft_title draft;
                  description := draft_description draft;
                  publicationDate := timestamp_of (draft_publicationDate draft);
                  authorId := draft_authorId draft;
                  createdAt := clock w;
                  updatedAt := clock w |} in
    (o <- call (RepoSave (id row)) ;;
     match o with
     | Rejected => throw StoreError
     | _ => fun w1 =>
       match find_row (id row) (articles w1) with
       | Some _ => (Throw StoreError, w1)
       | None =>
         (Ok {| columns := row; author := None |},
          with_articles (articles w1 ++ [row])
            (with_generated (S (generated w1)) (with_clock (clock w1 + 1) w1)))
       end
     end) w.

(** [repository.save] of an entity with an identifier.  The store looks up
    the row of that identifier.  When there is one and no column would
    change, nothing is written and [updatedAt] stays; otherwise the row is
    written and stamped, and the stamp is put on the entity.  When there is
    none the entity is inserted, which the store refuses if a column has no
    value.  The entity handed back is the one handed in. *)
Definition repo_save (e : Entity) : Async Entity :=
  o <- call (RepoSave (entity_id e)) ;;
  match o with
  | Rejected => throw StoreError
  | _ => fun w =>
    match find_row (entity_id e) (articles w) with
    | Some stored =>
      if bool_decide (written_row e stored = stored) then (Ok e, w)
      else
        (Ok (restamped (clock w) e),
         with_articles
           (replace_row (stamped (clock w) (written_row e stored)) (articles w))
           (with_clock (clock w + 1) w))
    | None =>
      match new_row e (clock w) with
      | Some row =>
        (Ok (restamped (clock w) e),
         with_articles (articles w ++ [row]) (with_clock (clock w + 1) w))
      | None => (Throw StoreError, w)
      end
    end
  end.

(** [repository.remove(article)] *)
Definition repo_remove (a : Article) : Async unit :=
  o <- call (RepoRemove (id (columns a))) ;;
  match o with
  | Rejected => throw StoreError
  | _ => fun w => (Ok tt, with_articles (delete_row (id (columns a)) (articles w)) w)
  end.

(** [queryBuilder.getManyAndCount()]: the page of the selected rows, joined
    with their authors, and the count of all selected rows.  The validation
    of the query in front of the service admits only a page and a limit of
    at least 1, so [skip] is not negative and [take] is positive; what the
    store does outside of that is not modelled. *)
Definition repo_getManyAndCount (conditions : list Condition) (skip take : Z)
  : Async (list Article * Z) :=
  o <- call (RepoGetManyAndCount conditions skip take) ;;
  match o with
  | Rejected => throw StoreError
  | _ => fun w =>
    let matching := List.filter (selected conditions) (articles w) in
    (Ok (map (with_author (users w))
           (firstn (Z.to_nat take)
              (skipn (Z.to_nat skip) (order_by_date_desc (tie_break w) matching))),
         Z.of_nat (length matching)), w)
  end.

(** ** The service *)

(** A string in a condition of an [if]: the empty string counts as
    [undefined]. *)
Definition truthy (v : option string) : option string :=
  match v with
  | Some EmptyString => None
  | _ => v
  end.

(** The [andWhere] calls of [findAll], in their order. *)
Definition where_conditions (query : QueryArticlesDto) : list Condition :=
  match truthy (query_authorId query) with
  | Some a => [AuthorIs a]
  | None => []
  end ++
  match truthy (query_fromDate query), truthy (query_toDate query) with
  | Some f, Some t => [PublishedBetween f t]
  | Some f, None => [PublishedFrom f]
  | None, Some t => [PublishedUntil t]
  | None, None => []
  end ++
  match truthy (query_search query) with
  | Some s => [TitleOrDescriptionILike ("%" +:+ s +:+ "%")]
  | None => []
  end.

Definition create (createArticleDto : CreateArticleDto) (userId : string)
  : Async Article :=
  let article := repo_create createArticleDto userId in
  savedArticle <- repo_insert article ;;
  articleWithAuthor <- repo_findOne (id (columns savedArticle)) ;;
  match articleWithAuthor with
  | None =>
    throw (NotFoundException
             ("Article with ID " +:+ id (columns savedArticle)
              +:+ " not found after creation"))
  | Some a => ret a
  end.

Definition findAll (query : QueryArticlesDto) : Async Payload :=
  let page := page_of query in
  let limit := limit_of query in
  let cacheKey := list_cache_key query in
  cachedResult <- cache_get cacheKey ;;
  match cachedResult with
  | Some cached => ret cached
  | None =>
    let skip := (page - 1) * limit in
    found <- repo_getManyAndCount (where_conditions query) skip limit ;;
    let (data, total) := found : list Article * Z in
    let totalPages := ceil_div total limit in
    let result := {| data := data; total := total; page := page;
                     limit := limit; totalPages := totalPages |} in
    cache_set cacheKey (APage result) TTL ;;;
    ret (APage result)
  end.

Definition findOne (id : string) : Async Payload :=
  let cacheKey := article_cache_key id in
  cachedArticle <- cache_get cacheKey ;;
  match cachedArticle with
  | Some cached => ret cached
  | None =>
    article <- repo_findOne id ;;
    match article with
    | None => throw (NotFoundException ("Article with ID " +:+ id +:+ " not found"))
    | Some a =>
      cache_set cacheKey (AnArticle a) TTL ;;;
      ret (AnArticle a)
    end
  end.

Definition invalidateArticleCache (id : string) : Async unit :=
  cache_del (article_cache_key id).

(** [Object.values(dto).some((value) => value !== undefined)] *)
Definition hasFields (updateArticleDto : UpdateArticleDto) : bool :=
  existsb (fun e => bool_decide (entry_value e <> None)) updateArticleDto.

Definition update_forbidden : Exception :=
  ForbiddenException "You are not authorized to update this article".

Definition remove_forbidden : Exception :=
  ForbiddenException "You are not authorized to delete this article".

(** [article.authorId !== userId] is decided on what [findOne] handed back;
    a page result has no [authorId], and [undefined] differs from every
    user id. *)
Definition update (id : string) (updateArticleDto : UpdateArticleDto) (userId : string)
  : Async Entity :=
  if negb (hasFields updateArticleDto) then
    throw (BadRequestException "At least one field must be provided for update")
  else
    article <- findOne id ;;
    match article with
    | AnArticle a =>
      if negb (bool_decide (authorId (columns a) = userId)) then throw update_forbidden
      else
        updatedArticle <- repo_save (Object_assign a updateArticleDto) ;;
        invalidateArticleCache id ;;;
        ret updatedArticle
    | APage _ => throw update_forbidden
    end.

Definition remove (id : string) (userId : string) : Async unit :=
  article <- findOne id ;;
  match article with
  | AnArticle a =>
    if negb (bool_decide (authorId (columns a) = userId)) then throw remove_forbidden
    else
      repo_remove a ;;;
      invalidateArticleCache id
  | APage _ => throw remove_forbidden
  end.

End Service.

(** ** A store for the examples *)

(** Dates written [YYYY-MM-DD], read as the number [YYYYMMDD]: an instance
    of the store's reading of date literals that keeps their order. *)
Fixpoint digits_value (s : string) (acc : Z) : Z :=
  match s with
  | EmptyString => acc
  | String c s' =>
    let n := nat_of_ascii c in
    if decide (48 <= n <= 57)%nat then digits_value s' (10 * acc + Z.of_nat (n - 48))
    else digits_value s' acc
  end.

Definition day_stamp (s : string) : Z := digits_value s 0.

Definition john : User :=
  {| user_id := "user-123"; email := "test@example.com"; password := "secret";
     firstName := "John"; lastName := "Doe";
     user_createdAt := 20231201; user_updatedAt := 20231201 |}.

Definition sample_row (n : nat) : ArticleRow :=
  {| id := generated_id n; title := "Test Article"; description := "Test Description";
     publicationDate := 20240101 + Z.of_nat n; authorId := "user-123";
     createdAt := 20240101; updatedAt := 20240101 |}.

(** A healthy world with [n] articles of John's and an empty cache. *)
Definition sample_world (n : nat) : World :=
  {| articles := map sample_row (seq 0 n); users := [john]; cache := ∅;
     clock := 20240201; generated := n; schedule := []; trace := [];
     tie_break := fun _ _ => false |}.

Definition sample_article (n : nat) : Article := with_author [john] (sample_row n).

Definition sample_page : PageResult :=
  {| data := [sample_article 0]; total := 1; page := 1; limit := 10; totalPages := 1 |}.

(** The same world after article 0 and the unfiltered first page were
    cached. *)
Definition warm_world : World :=
  with_cache
    (<[list_cache_key [] := (APage sample_page, TTL)]>
       (<[article_cache_key "article-0" := (AnArticle (sample_article 0), TTL)]> ∅))
    (sample_world 1).

Definition sample_dto : CreateArticleDto :=
  {| new_title := "Intro"; new_description := "NestJS basics";
     new_publicationDate := "2024-01-01" |}.

Definition sample_update : UpdateArticleDto := [UTitle (Some "Updated Title")].

(** Article 0 after [sample_update] was saved at the time of the sample
    world. *)
Definition updated_article : Entity :=
  {| entity_id := "article-0"; entity_title := Some "Updated Title";
     entity_description := Some "Test Description";
     entity_publicationDate := Some (DateObject 20240101);
     entity_authorId := "user-123"; entity_author := Some john;
     entity_createdAt := 20240101; entity_updatedAt := 20240201 |}.

(** The unfiltered first page as it was cached while the store was empty,
    and the store one article later: [create] leaves the cache alone. *)
Definition empty_page : PageResult :=
  {| data := []; total := 0; page := 1; limit := 10; totalPages := 0 |}.

Definition stale_world : World :=
  with_cache (<[list_cache_key [] := (APage empty_page, TTL)]> ∅) (sample_world 1).

(** ** Cache keys *)

(** The filters a query stands for once the defaults are applied. *)
Definition effective_filters (query : QueryArticlesDto)
  : Z * Z * option string * option string * option string * option string :=
  (page_of query, limit_of query, query_authorId query, query_fromDate query,
   query_toDate query, query_search query).

Definition is_defined (e : QueryEntry) : bool :=
  match e with
  | QPage v | QLimit v => bool_decide (v <> None)
  | QAuthorId v | QFromDate v | QToDate v | QSearch v => bool_decide (v <> None)
  end.

(** The properties of a query that hold a value, in the order they were
    supplied. *)
Definition supplied (query : QueryArticlesDto) : QueryArticlesDto :=
  List.filter is_defined query.

(** What a request asks for: the value its [page] property holds, the
    default when the property is missing or holds [undefined]. *)
Definition page_asked (query : QueryArticlesDto) (p : Z) : Prop :=
  (In (QPage (Some p)) query /\ forall v, In (QPage v) query -> v = Some p)
  \/ (p = 1 /\ forall v, In (QPage v) query -> v = None).

Definition limit_asked (query : QueryArticlesDto) (l : Z) : Prop :=
  (In (QLimit (Some l)) query /\ forall v, In (QLimit v) query -> v = Some l)
  \/ (l = 10 /\ forall v, In (QLimit v) query -> v = None).

(** ** Observing a run *)

(** The world after the calls [es] were recorded. *)
Definition logged (es : list Event) (w : World) : World :=
  with_trace (trace w ++ es) w.

(** The HTTP status the framework answers with: the status of the HTTP
    exception, 500 [Internal Server Error] for any other error. *)
Definition http_status (e : Exception) : Z :=
  match e with
  | NotFoundException _ => 404
  | ForbiddenException _ => 403
  | BadRequestException _ => 400
  | CacheError | StoreError => 500
  end.

Definition is_not_found {A} (r : Result A) : Prop :=
  exists message, r = Throw (NotFoundException message).

Definition is_forbidden {A} (r : Result A) : Prop :=
  exists message, r = Throw (ForbiddenException message).

Definition is_bad_request {A} (r : Result A) : Prop :=
  exists message, r = Throw (BadRequestException message).

(** What [findOne] resolves an identifier to in a healthy environment: the
    cached value when the cache holds one, the row of the store joined with
    its author otherwise. *)
Definition resolved (w : World) (key : string) : option Payload :=
  match cache w !! article_cache_key key with
  | Some (cached, _) => Some cached
  | None => (fun r => AnArticle (with_author (users w) r)) <$> find_row key (articles w)
  end.

(** Every field of the update is unset. *)
Definition all_unset (dto : UpdateArticleDto) : Prop :=
  Forall (fun e => entry_value e = None) dto.

(** The calls [findOne] makes to resolve an identifier. *)
Definition resolving_call (e : Event) : Prop :=
  match e with
  | CacheGet _ | RepoFindOne _ | CacheSet _ _ _ => True
  | _ => False
  end.

(** The calls that change a row of the store. *)
Definition store_mutation (e : Event) : Prop :=
  match e with
  | RepoSave _ | RepoRemove _ => True
  | _ => False
  end.

(** What a successful mutation of the article [key] leaves behind, from the
    world [w] it started in: the cache of [w] without the entry of the
    article, and a trace that ends with the store mutation followed by the
    deletion of that entry, after the calls that resolved the article. *)
Definition invalidated (key : string) (w w' : World) : Prop :=
  cache w' = delete (article_cache_key key) (cache w)
  /\ exists reads mutation,
      trace w' = (trace w ++ reads ++ [mutation; CacheDel (article_cache_key key)])%list
      /\ Forall resolving_call reads
      /\ store_mutation mutation.

(** ** The predicate of the specification *)

Fixpoint starts_with (prefix text : string) : bool :=
  match prefix, text with
  | EmptyString, _ => true
  | String c p, String x t => bool_decide (x = c) && starts_with p t
  | String _ _, EmptyString => false
  end.

(** [needle] occurs in [text]. *)
Fixpoint contains (needle text : string) : bool :=
  starts_with needle text
  || match text with
     | EmptyString => false
     | String _ t => contains needle t
     end.

Definition contains_ignoring_case (needle text : string) : bool :=
  contains (lowercase needle) (lowercase text).

(** A text without the characters [LIKE] gives a meaning to. *)
Fixpoint plain (s : string) : Prop :=
  match s with
  | EmptyString => True
  | String c s' => c <> percent /\ c <> underscore /\ c <> backslash /\ plain s'
  end.

(** The identifier and the dates of a filter, when supplied, are not empty
    texts. *)
Definition well_formed_filters (query : QueryArticlesDto) : Prop :=
  query_authorId query <> Some ""
  /\ query_fromDate query <> Some ""
  /\ query_toDate query <> Some "".

Section Specification.

Variable timestamp_of : string -> Z.

(** The store predicate in the words of the specification: author equality
    if [authorId] is present; the publication date in the closed interval
    the dates give; a case-insensitive substring match against title or
    description if [search] is present. *)
Definition spec_predicate (query : QueryArticlesDto) (r : ArticleRow) : bool :=
  match query_authorId query with
  | Some a => bool_decide (authorId r = a)
  | None => true
  end
  && match query_fromDate query, query_toDate query with
     | Some f, Some t =>
       bool_decide (timestamp_of f <= publicationDate r <= timestamp_of t)%Z
     | Some f, None => bool_decide (timestamp_of f <= publicationDate r)%Z
     | None, Some t => bool_decide (publicationDate r <= timestamp_of t)%Z
     | None, None => true
     end
  && match query_search query with
     | Some s =>
       contains_ignoring_case s (title r) || contains_ignoring_case s (description r)
     | None => true
     end.

End Specification.

(** ** Frames and invariants *)

(** The store of [w'] is the store of [w]: same rows, same users. *)
Definition same_store (w w' : World) : Prop :=
  articles w' = articles w /\ users w' = users w.

(** Every cache entry is filed under the key of what it holds: an article
    under the key of its own identifier, a page under the key of some query;
    and every entry has the five-minute time-to-live. *)
Definition well_keyed (c : gmap string (Payload * Z)) : Prop :=
  forall k v ttl,
    c !! k = Some (v, ttl) ->
    ttl = TTL
    /\ match v with
       | AnArticle a => k = article_cache_key (id (columns a))
       | APage _ => exists query, k = list_cache_key query
       end.

(** The calls [create] makes. *)
Definition creating_call (e : Event) : Prop :=
  match e with
  | RepoSave _ | RepoFindOne _ => True
  | _ => False
  end.

(** What an update holds for the title, the description and the publication
    date: nothing when it has no such property, and else what the property
    holds, a value or [undefined]. *)
Definition assigned_title (dto : UpdateArticleDto) : option (option string) :=
  foldl (fun acc e => match e with UTitle v => Some v | _ => acc end) None dto.

Definition assigned_description (dto : UpdateArticleDto) : option (option string) :=
  foldl (fun acc e => match e with UDescription v => Some v | _ => acc end) None dto.

Definition assigned_publicationDate (dto : UpdateArticleDto) : option (option string) :=
  foldl (fun acc e => match e with UPublicationDate v => Some v | _ => acc end) None dto.

Section Persisted.

Variable timestamp_of : string -> Z.

(** The row holds what the entity holds: the same identifier and author,
    and in each of the three columns a request can set the value of the
    entity's property, when the property has one. *)
Definition persisted (e : Entity) (row : ArticleRow) : Prop :=
  id row = entity_id e
  /\ authorId row = entity_authorId e
  /\ (forall t, entity_title e = Some t -> title row = t)
  /\ (forall d, entity_description e = Some d -> description row = d)
  /\ (forall p, entity_publicationDate e = Some p ->
      publicationDate row = instant_of timestamp_of p).

End Persisted.

(** Most recent first. *)
Definition newer_first (x y : ArticleRow) : Prop :=
  (publicationDate y <= publicationDate x)%Z.

(** ** Arrangements of ties *)

(** The place of a row in an arrangement, the length of the arrangement when
    it is not there. *)
Fixpoint rank (r : ArticleRow) (t : list ArticleRow) : nat :=
  match t with
  | [] => 0
  | y :: t' => if decide (y = r) then 0%nat else S (rank r t')
  end.

(** The order of ties that follows an arrangement. *)
Definition arrangement (target : list ArticleRow) (r x : ArticleRow) : bool :=
  bool_decide (rank r target < rank x target)%nat.

(** Most recent first, and by place in the arrangement among rows of the
    same date. *)
Definition ranked_before (target : list ArticleRow) (x y : ArticleRow) : Prop :=
  (publicationDate y < publicationDate x)%Z
  \/ (publicationDate y = publicationDate x /\ (rank x target < rank y target)%nat).

(** ** Reading a key back *)

Definition hex_value (c : ascii) : nat :=
  let n := nat_of_ascii c in
  if decide (48 <= n <= 57)%nat then n - 48 else n - 87.

(** The character at the head of an escaped text, and what follows it: the
    inverse of [json_escape].  There is none at the closing quote. *)
Definition unescape_head (s : string) : option (ascii * string) :=
  match s with
  | EmptyString => None
  | String c rest =>
    if decide (c = dquote) then None
    else if decide (c = backslash) then
      match rest with
      | EmptyString => None
      | String x rest' =>
        if decide (x = dquote) then Some (dquote, rest')
        else if decide (x = backslash) then Some (backslash, rest')
        else if decide (x = "b"%char) then Some (ascii_of_nat 8, rest')
        else if decide (x = "t"%char) then Some (ascii_of_nat 9, rest')
        else if decide (x = "n"%char) then Some (ascii_of_nat 10, rest')
        else if decide (x = "f"%char) then Some (ascii_of_nat 12, rest')
        else if decide (x = "r"%char) then Some (ascii_of_nat 13, rest')
        else
          match rest' with
          | String _ (String _ (String h (String l rest''))) =>
            Some (ascii_of_nat (16 * hex_value h + hex_value l), rest'')
          | _ => None
          end
      end
    else Some (c, rest)
  end.

(** The characters of a decimal number. *)
Definition number_char (c : ascii) : bool :=
  let n := nat_of_ascii c in
  bool_decide (48 <= n <= 57)%nat || bool_decide (n = 45)%nat.

Fixpoint number_text (s : string) : bool :=
  match s with
  | EmptyString => true
  | String c s' => number_char c && number_text s'
  end.

(** What follows a member in an object: a comma or the closing brace. *)
Definition ends_member (s : string) : Prop :=
  exists rest, s = String ","%char rest \/ s = String "}"%char rest.

(** The text [json_members] writes for one property. *)
Definition member_text (e : QueryEntry) : string :=
  match entry_property e with
  | (k, JNumber n) => json_quote k +:+ ":" +:+ pretty n
  | (k, JString s) => json_quote k +:+ ":" +:+ json_quote s
  | (_, JUndefined) => ""
  end.

(** What follows the first member of an object. *)
Definition tail_text (members : list string) : string :=
  match members with
  | [] => "}"
  | _ => "," +:+ join_with "," members +:+ "}"
  end.

(** ** The controller *)

(** What the framework sends back: the body with the status of the route,
    or the status of the failure. *)
Inductive Reply (A : Type) :=
| Sent (status : Z) (body : A)
| Failed (status : Z).
Arguments Sent {A} status body.
Arguments Failed {A} status.

Definition Handler (A : Type) : Type := World -> Reply A * World.

(** The handler of a route that answers with [success]: an exception of the
    service becomes its HTTP status. *)
Definition respond {A} (success : Z) (run : Async A) : Handler A :=
  fun w =>
    match run w with
    | (Ok a, w') => (Sent success a, w')
    | (Throw e, w') => (Failed (http_status e), w')
    end.

Module ArticlesController.

Section Routes.

Variable timestamp_of : string -> Z.

(** The request, and the two checks the framework runs in front of a
    handler, both declared outside of the controller: the guard, which
    gives the identifier of [req.user] or rejects the request (status 401),
    and the pipe on the [id] parameter, which rejects a text that is not a
    UUID (status 400).  Guards run before pipes.  Bodies and queries reach
    the handlers validated. *)
Variable Request : Type.
Variable JwtAuthGuard : Request -> option string.
Variable ParseUUIDPipe : string -> bool.

Definition UseGuards {A} (req : Request) (handler : string -> Handler A) : Handler A :=
  fun w =>
    match JwtAuthGuard req with
    | Some userId => handler userId w
    | None => (Failed 401, w)
    end.

Definition Param {A} (id : string) (handler : Handler A) : Handler A :=
  fun w => if ParseUUIDPipe id then handler w else (Failed 400, w).

(** [@Post() @UseGuards(JwtAuthGuard) @HttpCode(HttpStatus.CREATED)] *)
Definition create (createArticleDto : CreateArticleDto) (req : Request) : Handler Article :=
  UseGuards req (fun userId => respond 201 (create timestamp_of createArticleDto userId)).

(** [@Get()] *)
Definition findAll (query : QueryArticlesDto) : Handler Payload :=
  respond 200 (findAll timestamp_of query).

(** [@Get(':id')] *)
Definition findOne (id : string) : Handler Payload :=
  Param id (respond 200 (findOne id)).

(** [@Patch(':id') @UseGuards(JwtAuthGuard)] *)
Definition update (id : string) (updateArticleDto : UpdateArticleDto) (req : Request)
  : Handler Entity :=
  UseGuards req (fun userId =>
    Param id (respond 200 (update timestamp_of id updateArticleDto userId))).

(** [@Delete(':id') @UseGuards(JwtAuthGuard) @HttpCode(HttpStatus.NO_CONTENT)] *)
Definition remove (id : string) (req : Request) : Handler unit :=
  UseGuards req (fun userId => Param id (respond 204 (remove id userId))).

End Routes.

End ArticlesController.

(** A request that carries the identifier of its user, or nothing; and a
    test for the shape 8-4-4-4-12 of a UUID. *)
Definition bearer_guard (req : option string) : option string := req.

Definition uuid_shaped (s : string) : bool :=
  bool_decide (String.length s = 36%nat)
  && bool_decide (String.get 8 s = Some "-"%char)
  && bool_decide (String.get 13 s = Some "-"%char)
  && bool_decide (String.get 18 s = Some "-"%char)
  && bool_decide (String.get 23 s = Some "-"%char).

(** ** More sample data *)

(** The article of the service's tests, alone in a healthy world. *)
Definition mock_row : ArticleRow :=
  {| id := "123e4567-e89b-12d3-a456-426614174000"; title := "Test Article";
     description := "Test Description"; publicationDate := 20240101;
     authorId := "user-123"; createdAt := 20240101; updatedAt := 20240101 |}.

(** A request that sets the description and carries a title holding
    [undefined], and what [update] returns for it on article 0 of the sample
    world. *)
Definition partial_update : UpdateArticleDto :=
  [UTitle None; UDescription (Some "New")].

Definition partially_updated : Entity :=
  {| entity_id := "article-0"; entity_title := None;
     entity_description := Some "New";
     entity_publicationDate := Some (DateObject 20240101);
     entity_authorId := "user-123"; entity_author := Some john;
     entity_createdAt := 20240101; entity_updatedAt := 20240201 |}.

Definition mock_world : World :=
  {| articles := [mock_row]; users := [john]; cache := ∅;
     clock := 20240201; generated := 0; schedule := []; trace := [];
     tie_break := fun _ _ => false |}.

(** The same article still in the cache while its row is gone from the
    store: what a removal whose invalidation was rejected leaves behind. *)
Definition orphan_world : World :=
  with_cache
    (<[article_cache_key (id mock_row) := (AnArticle (with_author [john] mock_row), TTL)]> ∅)
    (with_articles [] mock_world).

(** * Properties *)

(** ** Cache keys *)

Example list_cache_key_test :
  list_cache_key [QPage (Some 1); QLimit (Some 10)]
  = "articles:{" +:+ json_quote "page" +:+ ":1," +:+ json_quote "limit" +:+ ":10}".
Proof. vm_compute. reflexivity. Qed.

Example list_cache_key_empty : list_cache_key [] = "articles:{}".
Proof. vm_compute. reflexivity. Qed.

Lemma json_members_supplied (query : QueryArticlesDto) :
  json_members (query_object (supplied query)) = json_members (query_object query).
Proof.
  induction query as [|e q IH]; [reflexivity|].
  destruct e as [[n|] | [n|] | [s|] | [s|] | [s|] | [s|]]; simpl; congruence.
Qed.

(** C1, as the code has it: two queries that were supplied with the same
    properties holding a value, in the same order and with the same values,
    get the same cache key. *)
Theorem C1_same_supplied_same_key (q1 q2 : QueryArticlesDto) :
  supplied q1 = supplied q2 -> list_cache_key q1 = list_cache_key q2.
Proof.
  intros H. unfold list_cache_key, JSON_stringify.
  rewrite <- (json_members_supplied q1), <- (json_members_supplied q2), H.
  reflexivity.
Qed.

Lemma C1_same_supplied_same_key_witness :
  supplied [QPage (Some 2); QSearch None] = supplied [QPage (Some 2)]
  /\ list_cache_key [QPage (Some 2); QSearch None] = list_cache_key [QPage (Some 2)].
Proof.
  split; [reflexivity|]. apply C1_same_supplied_same_key. reflexivity.
Defined.

(** C1, as the spec states it, fails: leaving out the default page and
    limit changes the key, though the effective filters are the same. *)
Lemma C1_defaults_change_key :
  ~ (forall q1 q2 : QueryArticlesDto,
       effective_filters q1 = effective_filters q2 ->
       list_cache_key q1 = list_cache_key q2).
Proof.
  intros H.
  specialize (H [] [QPage (Some 1); QLimit (Some 10)] eq_refl).
  vm_compute in H. discriminate H.
Qed.

(** So does the order of the properties. *)
Lemma field_order_changes_key :
  effective_filters [QPage (Some 2); QLimit (Some 5)]
  = effective_filters [QLimit (Some 5); QPage (Some 2)]
  /\ list_cache_key [QPage (Some 2); QLimit (Some 5)]
     <> list_cache_key [QLimit (Some 5); QPage (Some 2)].
Proof. split; [reflexivity|]. vm_compute. discriminate. Qed.

Lemma json_members_head (e : QueryEntry) (q : QueryArticlesDto) :
  is_defined e = true ->
  exists m ms, json_members (query_object (e :: q)) = String dquote m :: ms.
Proof.
  intros He.
  destruct e as [[n|] | [n|] | [s|] | [s|] | [s|] | [s|]]; try discriminate He;
    cbn [query_object map entry_property js_number js_string json_members];
    unfold json_quote; eexists _, _; reflexivity.
Qed.

(** A query that supplies a value never has the key of the empty query. *)
Lemma supplying_a_field_changes_key (e : QueryEntry) (q : QueryArticlesDto) :
  is_defined e = true -> list_cache_key (e :: q) <> list_cache_key [].
Proof.
  intros He H. destruct (json_members_head e q He) as (m & ms & Hm).
  unfold list_cache_key, JSON_stringify in H. rewrite Hm in H.
  cbn [query_object map json_members join_with] in H.
  destruct ms; cbv [String.append] in H; discriminate H.
Qed.

(** Page and limit supplied in the other order never have the same key. *)
Lemma page_limit_order_changes_key (p l : Z) :
  list_cache_key [QPage (Some p); QLimit (Some l)]
  <> list_cache_key [QLimit (Some l); QPage (Some p)].
Proof.
  intros H. unfold list_cache_key, JSON_stringify in H.
  cbn [query_object map entry_property js_number json_members join_with] in H.
  change (json_quote "page") with (String dquote ("page" +:+ String dquote "")) in H.
  change (json_quote "limit") with (String dquote ("limit" +:+ String dquote "")) in H.
  cbv [String.append] in H. discriminate H.
Qed.

(** ** Runs in a healthy environment *)

Ltac world :=
  cbn [articles users cache clock generated schedule trace tie_break logged with_trace
       with_cache with_articles with_clock with_generated with_schedule
       fmap option_fmap option_map fst snd].

Lemma call_served e w : schedule w = [] -> call e w = (Ok Served, logged [e] w).
Proof. destruct w; simpl; intros ->; reflexivity. Qed.

Lemma logged_logged es1 es2 w : logged es2 (logged es1 w) = logged (es1 ++ es2) w.
Proof. destruct w; unfold logged; simpl. rewrite <- app_assoc. reflexivity. Qed.

Lemma cache_get_served key w :
  schedule w = [] ->
  cache_get key w = (Ok (fst <$> cache w !! key), logged [CacheGet key] w).
Proof. intros H. unfold cache_get, bind. rewrite call_served by assumption. reflexivity. Qed.

Lemma cache_set_served key v ttl w :
  schedule w = [] ->
  cache_set key v ttl w
  = (Ok tt, with_cache (<[key := (v, ttl)]> (cache w)) (logged [CacheSet key v ttl] w)).
Proof. intros H. unfold cache_set, bind. rewrite call_served by assumption. reflexivity. Qed.

Lemma cache_del_served key w :
  schedule w = [] ->
  cache_del key w = (Ok tt, with_cache (delete key (cache w)) (logged [CacheDel key] w)).
Proof. intros H. unfold cache_del, bind. rewrite call_served by assumption. reflexivity. Qed.

Lemma repo_findOne_served key w :
  schedule w = [] ->
  repo_findOne key w
  = (Ok (with_author (users w) <$> find_row key (articles w)), logged [RepoFindOne key] w).
Proof. intros H. unfold repo_findOne, bind. rewrite call_served by assumption. reflexivity. Qed.

Lemma repo_remove_served a w :
  schedule w = [] ->
  repo_remove a w
  = (Ok tt, with_articles (delete_row (id (columns a)) (articles w))
              (logged [RepoRemove (id (columns a))] w)).
Proof. intros H. unfold repo_remove, bind. rewrite call_served by assumption. reflexivity. Qed.

Section HealthyRuns.

Variable timestamp_of : string -> Z.

Lemma repo_getManyAndCount_served conditions skip take w :
  schedule w = [] ->
  repo_getManyAndCount timestamp_of conditions skip take w
  = (Ok (map (with_author (users w))
           (firstn (Z.to_nat take)
              (skipn (Z.to_nat skip)
                 (order_by_date_desc (tie_break w)
                    (List.filter (selected timestamp_of conditions) (articles w))))),
         Z.of_nat (length (List.filter (selected timestamp_of conditions) (articles w)))),
     logged [RepoGetManyAndCount conditions skip take] w).
Proof.
  intros H. unfold repo_getManyAndCount, bind.
  rewrite call_served by assumption. reflexivity.
Qed.

Lemma findOne_hit w key v ttl :
  schedule w = [] -> cache w !! article_cache_key key = Some (v, ttl) ->
  findOne key w = (Ok v, logged [CacheGet (article_cache_key key)] w).
Proof.
  intros Hs Hc. unfold findOne, bind.
  rewrite cache_get_served, Hc by assumption. reflexivity.
Qed.

Lemma findOne_miss_found w key row :
  schedule w = [] -> cache w !! article_cache_key key = None ->
  find_row key (articles w) = Some row ->
  findOne key w =
    (Ok (AnArticle (with_author (users w) row)),
     with_cache
       (<[article_cache_key key := (AnArticle (with_author (users w) row), TTL)]> (cache w))
       (logged [CacheGet (article_cache_key key); RepoFindOne key;
                CacheSet (article_cache_key key)
                  (AnArticle (with_author (users w) row)) TTL] w)).
Proof.
  intros Hs Hc Hr. unfold findOne, bind.
  rewrite cache_get_served, Hc by assumption. world.
  rewrite repo_findOne_served by assumption. world. rewrite Hr. world.
  rewrite cache_set_served by assumption. world.
  rewrite !logged_logged. reflexivity.
Qed.

Lemma findOne_miss_absent w key :
  schedule w = [] -> cache w !! article_cache_key key = None ->
  find_row key (articles w) = None ->
  findOne key w =
    (Throw (NotFoundException ("Article with ID " +:+ key +:+ " not found")),
     logged [CacheGet (article_cache_key key); RepoFindOne key] w).
Proof.
  intros Hs Hc Hr. unfold findOne, bind.
  rewrite cache_get_served, Hc by assumption. world.
  rewrite repo_findOne_served by assumption. world. rewrite Hr. world.
  unfold throw. rewrite !logged_logged. reflexivity.
Qed.

Lemma findAll_hit w query v ttl :
  schedule w = [] -> cache w !! list_cache_key query = Some (v, ttl) ->
  findAll timestamp_of query w = (Ok v, logged [CacheGet (list_cache_key query)] w).
Proof.
  intros Hs Hc. unfold findAll, bind.
  rewrite cache_get_served, Hc by assumption. reflexivity.
Qed.

(** What [findAll] loads from the store for a query. *)
Lemma findAll_miss w query :
  schedule w = [] -> cache w !! list_cache_key query = None ->
  let key := list_cache_key query in
  let skip := (page_of query - 1) * limit_of query in
  let matching :=
    List.filter (selected timestamp_of (where_conditions query)) (articles w) in
  let result :=
    {| data := map (with_author (users w))
                 (firstn (Z.to_nat (limit_of query))
                    (skipn (Z.to_nat skip) (order_by_date_desc (tie_break w) matching)));
       total := Z.of_nat (length matching);
       page := page_of query;
       limit := limit_of query;
       totalPages := ceil_div (Z.of_nat (length matching)) (limit_of query) |} in
  findAll timestamp_of query w =
    (Ok (APage result),
     with_cache (<[key := (APage result, TTL)]> (cache w))
       (logged [CacheGet key;
                RepoGetManyAndCount (where_conditions query) skip (limit_of query);
                CacheSet key (APage result) TTL] w)).
Proof.
  intros Hs Hc. unfold findAll, bind.
  rewrite cache_get_served, Hc by assumption. world.
  rewrite repo_getManyAndCount_served by assumption. world.
  rewrite cache_set_served by assumption. world.
  rewrite !logged_logged. reflexivity.
Qed.

End HealthyRuns.

(** ** Cache-aside reads *)

Section CacheAside.

Variable timestamp_of : string -> Z.

(** C2: in a healthy environment, [findAll] and [findOne] return the cached
    value when the cache holds an entry for the key, and the only call they
    make is the cache read.  On a miss they query the store, write the
    loaded value to the cache once, at that key and with a time-to-live of
    five minutes, and return the loaded value.  ([findOne] has a value to
    load when the store holds the article; otherwise it fails.) *)
Theorem C2_cache_aside_read (w : World) :
  schedule w = [] ->
  (forall query : QueryArticlesDto,
     let key := list_cache_key query in
     match cache w !! key with
     | Some (cached, _) =>
       findAll timestamp_of query w = (Ok cached, logged [CacheGet key] w)
     | None =>
       exists (loaded : PageResult) conditions skip take,
         fst (repo_getManyAndCount timestamp_of conditions skip take
                (logged [CacheGet key] w))
         = Ok (data loaded, total loaded)
         /\ findAll timestamp_of query w =
            (Ok (APage loaded),
             with_cache (<[key := (APage loaded, 5 * 60 * 1000)]> (cache w))
               (logged [CacheGet key; RepoGetManyAndCount conditions skip take;
                        CacheSet key (APage loaded) (5 * 60 * 1000)] w))
     end)
  /\ (forall id : string,
     let key := article_cache_key id in
     match cache w !! key, find_row id (articles w) with
     | Some (cached, _), _ =>
       findOne id w = (Ok cached, logged [CacheGet key] w)
     | None, Some row =>
       let loaded := AnArticle (with_author (users w) row) in
       findOne id w =
         (Ok loaded,
          with_cache (<[key := (loaded, 5 * 60 * 1000)]> (cache w))
            (logged [CacheGet key; RepoFindOne id;
                     CacheSet key loaded (5 * 60 * 1000)] w))
     | None, None => is_not_found (fst (findOne id w))
     end).
Proof.
  intros Hs. split.
  - intros query key. destruct (cache w !! key) as [[cached ttl]|] eqn:Hc.
    + eapply findAll_hit; eassumption.
    + eexists _, _, _, _. split; [|apply findAll_miss; assumption].
      rewrite repo_getManyAndCount_served by assumption. reflexivity.
  - intros i key. destruct (cache w !! key) as [[cached ttl]|] eqn:Hc.
    + eapply findOne_hit; eassumption.
    + destruct (find_row i (articles w)) as [row|] eqn:Hr.
      * apply findOne_miss_found; assumption.
      * rewrite findOne_miss_absent by assumption. eexists. reflexivity.
Qed.

(** C3: in a healthy environment, [findOne] fails with not-found exactly
    when neither the cache nor the store holds the article; the failing run
    makes the cache read and the store read and nothing else, so nothing is
    written to the cache and the cache is as it was. *)
Theorem C3_not_found_is_not_cached (w : World) (key : string) :
  schedule w = [] ->
  (is_not_found (fst (findOne key w)) <->
   cache w !! article_cache_key key = None /\ find_row key (articles w) = None)
  /\ (is_not_found (fst (findOne key w)) ->
      snd (findOne key w)
      = logged [CacheGet (article_cache_key key); RepoFindOne key] w
      /\ cache (snd (findOne key w)) = cache w).
Proof.
  intros Hs.
  destruct (cache w !! article_cache_key key) as [[cached ttl]|] eqn:Hc.
  - rewrite (findOne_hit w key cached ttl) by assumption. cbn [fst snd].
    split; [split|]; intros H.
    + destruct H as [m H]. discriminate H.
    + destruct H as [H _]. discriminate H.
    + destruct H as [m H]. discriminate H.
  - destruct (find_row key (articles w)) as [row|] eqn:Hr.
    + rewrite (findOne_miss_found w key row) by assumption. cbn [fst snd].
      split; [split|]; intros H.
      * destruct H as [m H]. discriminate H.
      * destruct H as [_ H]. discriminate H.
      * destruct H as [m H]. discriminate H.
    + rewrite findOne_miss_absent by assumption. cbn [fst snd].
      split; [split|]; intros H.
      * split; reflexivity.
      * eexists. reflexivity.
      * split; reflexivity.
Qed.

End CacheAside.

(** ** Mutations: validation and ownership *)

Lemma hasFields_false (dto : UpdateArticleDto) :
  hasFields dto = false <-> all_unset dto.
Proof.
  unfold all_unset. induction dto as [|e dto IH]; simpl.
  - split; [constructor | reflexivity].
  - rewrite orb_false_iff, IH, Forall_cons, bool_decide_eq_false.
    split; intros [H1 H2]; split; try assumption.
    + destruct (entry_value e); [exfalso; apply H1; discriminate | reflexivity].
    + rewrite H1. intros H. apply H. reflexivity.
Qed.

Lemma hasFields_true (dto : UpdateArticleDto) :
  hasFields dto = true <-> ~ all_unset dto.
Proof.
  rewrite <- hasFields_false. destruct (hasFields dto); split; congruence.
Qed.

Lemma cache_del_result key w :
  fst (cache_del key w) = Ok tt \/ fst (cache_del key w) = Throw CacheError.
Proof.
  unfold cache_del, bind, call, throw. destruct (hd Served (schedule w)); cbn; auto.
Qed.

Section Mutations.

Variable timestamp_of : string -> Z.

Lemma repo_save_served e w :
  schedule w = [] ->
  repo_save timestamp_of e w
  = match find_row (entity_id e) (articles w) with
    | Some stored =>
      if bool_decide (written_row timestamp_of e stored = stored)
      then (Ok e, logged [RepoSave (entity_id e)] w)
      else
        (Ok (restamped (clock w) e),
         with_articles
           (replace_row (stamped (clock w) (written_row timestamp_of e stored)) (articles w))
           (with_clock (clock w + 1) (logged [RepoSave (entity_id e)] w)))
    | None =>
      match new_row timestamp_of e (clock w) with
      | Some row =>
        (Ok (restamped (clock w) e),
         with_articles (articles w ++ [row])
           (with_clock (clock w + 1) (logged [RepoSave (entity_id e)] w)))
      | None => (Throw StoreError, logged [RepoSave (entity_id e)] w)
      end
    end.
Proof. intros H. unfold repo_save, bind. rewrite call_served by assumption. reflexivity. Qed.

(** [save] succeeds or fails with the store's error, in any environment. *)
Lemma repo_save_result e w :
  (exists e', fst (repo_save timestamp_of e w) = Ok e')
  \/ fst (repo_save timestamp_of e w) = Throw StoreError.
Proof.
  unfold repo_save, bind, call, throw.
  destruct (hd Served (schedule w)); world; cbn [fst]; auto;
    (destruct (find_row (entity_id e) (articles w));
     [destruct (bool_decide _) | destruct (new_row _ _ _)]); cbn [fst]; eauto.
Qed.

(** C5: an update in which every field is unset fails with a bad-request
    error, whatever the environment, and the world is untouched: no call to
    the cache or to the store was made. *)
Theorem C5_empty_update_rejected (w : World) (key : string)
    (dto : UpdateArticleDto) (userId : string) :
  all_unset dto ->
  update timestamp_of key dto userId w
  = (Throw (BadRequestException "At least one field must be provided for update"), w).
Proof.
  intros H. apply hasFields_false in H. unfold update. rewrite H. reflexivity.
Qed.

Lemma update_after_findOne (w w1 : World) (key : string) (dto : UpdateArticleDto)
    (userId : string) (r : Result Payload) :
  hasFields dto = true ->
  findOne key w = (r, w1) ->
  update timestamp_of key dto userId w =
  match r with
  | Ok (AnArticle a) =>
    if bool_decide (authorId (columns a) = userId) then
      (updatedArticle <- repo_save timestamp_of (Object_assign a dto) ;;
       invalidateArticleCache key ;;;
       ret updatedArticle) w1
    else (Throw update_forbidden, w1)
  | Ok (APage _) => (Throw update_forbidden, w1)
  | Throw e => (Throw e, w1)
  end.
Proof.
  intros Hf Hr. unfold update. rewrite Hf. cbn [negb]. unfold bind at 1. rewrite Hr.
  destruct r as [[a|p]|e]; try reflexivity.
  destruct (bool_decide (authorId (columns a) = userId)); reflexivity.
Qed.

Lemma remove_after_findOne (w w1 : World) (key userId : string) (r : Result Payload) :
  findOne key w = (r, w1) ->
  remove key userId w =
  match r with
  | Ok (AnArticle a) =>
    if bool_decide (authorId (columns a) = userId) then
      (repo_remove a ;;; invalidateArticleCache key) w1
    else (Throw remove_forbidden, w1)
  | Ok (APage _) => (Throw remove_forbidden, w1)
  | Throw e => (Throw e, w1)
  end.
Proof.
  intros Hr. unfold remove. unfold bind at 1. rewrite Hr.
  destruct r as [[a|p]|e]; try reflexivity.
  destruct (bool_decide (authorId (columns a) = userId)); reflexivity.
Qed.

Lemma update_resolved (w w1 : World) (key : string) (dto : UpdateArticleDto)
    (userId : string) (v : Payload) :
  findOne key w = (Ok v, w1) ->
  schedule w1 = [] -> hasFields dto = true ->
  match v with
  | AnArticle a =>
    (is_forbidden (fst (update timestamp_of key dto userId w))
     <-> authorId (columns a) <> userId)
    /\ ~ is_not_found (fst (update timestamp_of key dto userId w))
  | APage _ => is_forbidden (fst (update timestamp_of key dto userId w))
  end.
Proof.
  intros Hr Hs Hf. rewrite (update_after_findOne w w1 key dto userId _ Hf Hr).
  destruct v as [a|r]; [|eexists; reflexivity].
  destruct (bool_decide (authorId (columns a) = userId)) eqn:Hb.
  - apply bool_decide_eq_true in Hb. unfold bind, invalidateArticleCache.
    pose proof (repo_save_result (Object_assign a dto) w1) as Hsave.
    destruct (repo_save timestamp_of (Object_assign a dto) w1) as [[saved|x] w2].
    + pose proof (cache_del_result (article_cache_key key) w2) as Hdel.
      destruct (cache_del (article_cache_key key) w2) as [[u|y] w3]; cbn [ret fst] in *.
      * split; [split|].
        -- intros [m H]. discriminate H.
        -- intros H. contradiction.
        -- intros [m H]. discriminate H.
      * destruct Hdel as [Hdel|Hdel]; [discriminate Hdel|]. injection Hdel as ->.
        split; [split|].
        -- intros [m H]. discriminate H.
        -- intros H. contradiction.
        -- intros [m H]. discriminate H.
    + cbn [fst] in *. destruct Hsave as [[e' He]|He]; [discriminate He|].
      injection He as ->. split; [split|].
      * intros [m H]. discriminate H.
      * intros H. contradiction.
      * intros [m H]. discriminate H.
  - apply bool_decide_eq_false in Hb. cbn [fst]. split; [split|].
    + intros _. assumption.
    + intros _. eexists. reflexivity.
    + intros [m H]. discriminate H.
Qed.

Lemma remove_resolved (w w1 : World) (key userId : string) (v : Payload) :
  findOne key w = (Ok v, w1) ->
  schedule w1 = [] ->
  match v with
  | AnArticle a =>
    (is_forbidden (fst (remove key userId w)) <-> authorId (columns a) <> userId)
    /\ ~ is_not_found (fst (remove key userId w))
  | APage _ => is_forbidden (fst (remove key userId w))
  end.
Proof.
  intros Hr Hs. rewrite (remove_after_findOne w w1 key userId _ Hr).
  destruct v as [a|r]; [|eexists; reflexivity].
  destruct (bool_decide (authorId (columns a) = userId)) eqn:Hb.
  - apply bool_decide_eq_true in Hb. unfold bind.
    rewrite repo_remove_served by assumption. unfold invalidateArticleCache.
    rewrite cache_del_served by (world; assumption). cbn [fst].
    split; [split|].
    + intros [m H]. discriminate H.
    + intros H. contradiction.
    + intros [m H]. discriminate H.
  - apply bool_decide_eq_false in Hb. cbn [fst]. split; [split|].
    + intros _. assumption.
    + intros _. eexists. reflexivity.
    + intros [m H]. discriminate H.
Qed.

(** C4, as the code has it: in a healthy environment, [remove], and [update]
    with at least one field set, of an article that exists, whether
    [findOne] serves it from the cache or from the store, fail with
    forbidden exactly when the principal is not the article's author, and
    then never with not-found; for an identifier that neither the cache nor
    the store knows they fail with not-found.  An [update] with every field
    unset fails with a bad request, not with forbidden and not with
    not-found, whoever asks and whether or not the article exists. *)
Theorem C4_ownership_after_existence (w : World) (key userId : string)
    (dto : UpdateArticleDto) :
  schedule w = [] ->
  match resolved w key with
  | Some (AnArticle a) =>
    (is_forbidden (fst (remove key userId w)) <-> authorId (columns a) <> userId)
    /\ ~ is_not_found (fst (remove key userId w))
    /\ (~ all_unset dto ->
        (is_forbidden (fst (update timestamp_of key dto userId w))
         <-> authorId (columns a) <> userId)
        /\ ~ is_not_found (fst (update timestamp_of key dto userId w)))
  | Some (APage _) =>
    is_forbidden (fst (remove key userId w))
    /\ (~ all_unset dto -> is_forbidden (fst (update timestamp_of key dto userId w)))
  | None =>
    is_not_found (fst (remove key userId w))
    /\ (~ all_unset dto -> is_not_found (fst (update timestamp_of key dto userId w)))
  end
  /\ (all_unset dto ->
      is_bad_request (fst (update timestamp_of key dto userId w))
      /\ ~ is_forbidden (fst (update timestamp_of key dto userId w))
      /\ ~ is_not_found (fst (update timestamp_of key dto userId w))).
Proof.
  intros Hs. split.
  - unfold resolved.
    destruct (cache w !! article_cache_key key) as [[cached ttl]|] eqn:Hc.
    + pose proof (findOne_hit w key cached ttl Hs Hc) as Hr.
      pose proof (remove_resolved w _ key userId cached Hr Hs) as Hd.
      assert (~ all_unset dto ->
              match cached with
              | AnArticle a =>
                (is_forbidden (fst (update timestamp_of key dto userId w))
                 <-> authorId (columns a) <> userId)
                /\ ~ is_not_found (fst (update timestamp_of key dto userId w))
              | APage _ => is_forbidden (fst (update timestamp_of key dto userId w))
              end) as Hu.
      { intros Hf. apply hasFields_true in Hf.
        exact (update_resolved w _ key dto userId cached Hr Hs Hf). }
      destruct cached; tauto.
    + destruct (find_row key (articles w)) as [row|] eqn:Hrow;
        cbn [fmap option_fmap option_map].
      * pose proof (findOne_miss_found w key row Hs Hc Hrow) as Hr.
        pose proof (remove_resolved w _ key userId _ Hr Hs) as Hd.
        cbn beta iota in Hd. destruct Hd as [Hd1 Hd2].
        split; [exact Hd1|]. split; [exact Hd2|].
        intros Hf. apply hasFields_true in Hf.
        exact (update_resolved w _ key dto userId _ Hr Hs Hf).
      * pose proof (findOne_miss_absent w key Hs Hc Hrow) as Hr.
        rewrite (remove_after_findOne w _ key userId _ Hr).
        split; [eexists; reflexivity|].
        intros Hf. apply hasFields_true in Hf.
        rewrite (update_after_findOne w _ key dto userId _ Hf Hr).
        eexists. reflexivity.
  - intros Hu. apply hasFields_false in Hu. unfold update. rewrite Hu. cbn [negb throw fst].
    split; [eexists; reflexivity|]. split; intros [m H]; discriminate H.
Qed.

End Mutations.

(** C4, as the spec states it, fails: an [update] that sets no field is
    refused as a bad request before the article is looked up, so by someone
    who is not the author it does not fail with forbidden, and for an
    unknown identifier it does not fail with not-found. *)
Lemma C4_empty_update_is_a_bad_request :
  ~ (forall (w : World) (key userId : string) (dto : UpdateArticleDto),
       schedule w = [] ->
       match resolved w key with
       | Some (AnArticle a) =>
         is_forbidden (fst (update day_stamp key dto userId w))
         <-> authorId (columns a) <> userId
       | Some (APage _) => True
       | None => is_not_found (fst (update day_stamp key dto userId w))
       end).
Proof.
  intros H.
  pose proof (H (sample_world 1) "article-0" "different-user" [] eq_refl) as Hforbidden.
  assert (resolved (sample_world 1) "article-0" = Some (AnArticle (sample_article 0))) as E
    by (vm_compute; reflexivity).
  rewrite E in Hforbidden. destruct Hforbidden as [_ Hforbidden].
  destruct Hforbidden as [m Hm]; [vm_compute; discriminate|].
  cbv in Hm. discriminate Hm.
Qed.

(** The same for an identifier that nobody knows. *)
Lemma empty_update_of_unknown_article :
  resolved (sample_world 1) "article-7" = None
  /\ fst (update day_stamp "article-7" [] "user-123" (sample_world 1))
     = Throw (BadRequestException "At least one field must be provided for update").
Proof. split; [vm_compute; reflexivity | reflexivity]. Qed.

(** ** Invalidation *)

Lemma key_namespaces_disjoint (query : QueryArticlesDto) (key : string) :
  list_cache_key query <> article_cache_key key.
Proof. unfold list_cache_key, article_cache_key. simpl. discriminate. Qed.

Lemma bind_ok_inv {A B} (m : Async A) (k : A -> Async B) w b w' :
  bind m k w = (Ok b, w') -> exists a w1, m w = (Ok a, w1) /\ k a w1 = (Ok b, w').
Proof.
  unfold bind. destruct (m w) as [[a|e] w1]; intros H; [|discriminate H].
  exists a, w1. split; [reflexivity | assumption].
Qed.

Lemma cache_del_ok_inv key w u w1 :
  cache_del key w = (Ok u, w1) ->
  cache w1 = delete key (cache w) /\ trace w1 = (trace w ++ [CacheDel key])%list.
Proof.
  unfold cache_del, bind, call, throw.
  destruct (hd Served (schedule w)); intros [= <- <-]; split; reflexivity.
Qed.

Lemma repo_remove_ok_inv a w u w1 :
  repo_remove a w = (Ok u, w1) ->
  cache w1 = cache w /\ trace w1 = (trace w ++ [RepoRemove (id (columns a))])%list.
Proof.
  unfold repo_remove, bind, call, throw.
  destruct (hd Served (schedule w)); intros [= <- <-]; split; reflexivity.
Qed.

Lemma article_cache_key_inj (k1 k2 : string) :
  article_cache_key k1 = article_cache_key k2 -> k1 = k2.
Proof. unfold article_cache_key. cbv [String.append]. intros [= H]. exact H. Qed.

(** A successful [findOne], in any environment, leaves the cache as it was
    but for the entry of the article, and makes resolving calls only. *)
Lemma findOne_ok_inv key w v w1 :
  findOne key w = (Ok v, w1) ->
  delete (article_cache_key key) (cache w1) = delete (article_cache_key key) (cache w)
  /\ exists reads, trace w1 = (trace w ++ reads)%list /\ Forall resolving_call reads.
Proof.
  unfold findOne. intros H.
  apply bind_ok_inv in H as (cached & w2 & Hget & H).
  assert (cache w2 = cache w /\ trace w2 = (trace w ++ [CacheGet (article_cache_key key)])%list)
    as [Hc2 Ht2].
  { revert Hget. unfold cache_get, bind, call, throw.
    destruct (hd Served (schedule w)); intros [= <- <-]; split; reflexivity. }
  destruct cached as [c|].
  - injection H as <- <-. rewrite Hc2. split; [reflexivity|].
    eexists. split; [eassumption|]. repeat constructor.
  - apply bind_ok_inv in H as (found & w3 & Hfind & H).
    assert (cache w3 = cache w2 /\ trace w3 = (trace w2 ++ [RepoFindOne key])%list) as [Hc3 Ht3].
    { revert Hfind. unfold repo_findOne, bind, call, throw, ret.
      destruct (hd Served (schedule w2)); intros [= <- <-]; split; reflexivity. }
    destruct found as [a|]; [|discriminate H].
    apply bind_ok_inv in H as (u & w4 & Hset & H). injection H as <- <-.
    assert (cache w4 = <[article_cache_key key := (AnArticle a, TTL)]> (cache w3)
            /\ trace w4 = (trace w3 ++ [CacheSet (article_cache_key key) (AnArticle a) TTL])%list)
      as [Hc4 Ht4].
    { revert Hset. unfold cache_set, bind, call, throw.
      destruct (hd Served (schedule w3)); intros [= <- <-]; split; reflexivity. }
    rewrite Hc4, Hc3, Hc2, delete_insert_eq. split; [reflexivity|].
    eexists. rewrite Ht4, Ht3, Ht2, <- !app_assoc. split; [reflexivity|].
    repeat constructor.
Qed.

Section Invalidation.

Variable timestamp_of : string -> Z.

Lemma repo_save_ok_inv e w r w1 :
  repo_save timestamp_of e w = (Ok r, w1) ->
  cache w1 = cache w /\ trace w1 = (trace w ++ [RepoSave (entity_id e)])%list.
Proof.
  unfold repo_save, bind, call, throw.
  destruct (hd Served (schedule w)); world; try discriminate;
    (destruct (find_row (entity_id e) (articles w));
     [destruct (bool_decide _) | destruct (new_row _ _ _)]);
    intros [= <- <-]; split; reflexivity.
Qed.

Lemma update_ok_invalidated w key dto userId a' w' :
  update timestamp_of key dto userId w = (Ok a', w') -> invalidated key w w'.
Proof.
  intros H. destruct (hasFields dto) eqn:Hf.
  2:{ unfold update in H. rewrite Hf in H. discriminate H. }
  destruct (findOne key w) as [r w1] eqn:Hr.
  rewrite (update_after_findOne timestamp_of w w1 key dto userId r Hf Hr) in H.
  destruct r as [[a|p]|e]; try discriminate H.
  destruct (bool_decide (authorId (columns a) = userId)); [|discriminate H].
  apply findOne_ok_inv in Hr as (Hc1 & reads & Ht1 & Hreads).
  apply bind_ok_inv in H as (saved & w2 & Hsave & H).
  apply repo_save_ok_inv in Hsave as [Hc2 Ht2].
  apply bind_ok_inv in H as (u & w3 & Hdel & H). injection H as <- <-.
  apply cache_del_ok_inv in Hdel as [Hc3 Ht3].
  split.
  - rewrite Hc3, Hc2. exact Hc1.
  - exists reads, (RepoSave (entity_id (Object_assign a dto))).
    rewrite Ht3, Ht2, Ht1, <- !app_assoc. split; [reflexivity|]. split; [assumption | exact I].
Qed.

Lemma remove_ok_invalidated w key userId u w' :
  remove key userId w = (Ok u, w') -> invalidated key w w'.
Proof.
  intros H. destruct (findOne key w) as [r w1] eqn:Hr.
  rewrite (remove_after_findOne w w1 key userId r Hr) in H.
  destruct r as [[a|p]|e]; try discriminate H.
  destruct (bool_decide (authorId (columns a) = userId)); [|discriminate H].
  apply findOne_ok_inv in Hr as (Hc1 & reads & Ht1 & Hreads).
  apply bind_ok_inv in H as (u1 & w2 & Hrem & H).
  apply repo_remove_ok_inv in Hrem as [Hc2 Ht2].
  apply cache_del_ok_inv in H as [Hc3 Ht3].
  split.
  - rewrite Hc3, Hc2. exact Hc1.
  - exists reads, (RepoRemove (id (columns a))).
    rewrite Ht3, Ht2, Ht1, <- !app_assoc. split; [reflexivity|]. split; [assumption | exact I].
Qed.

(** C9: every successful [update] and [remove] of the article [key], in any
    environment, ends with the store mutation followed by the deletion of
    the cache entry filed under the text [article:] followed by [key]; the
    cache it leaves is the cache it found without that entry, so every
    other entry is as it was: those of the other articles, and those of the
    collection queries, filed under [articles:] followed by the JSON text
    of the query. *)
Theorem C9_invalidation_frame (w w' : World) (key userId : string)
    (dto : UpdateArticleDto) (updated : Entity) :
  update timestamp_of key dto userId w = (Ok updated, w')
  \/ remove key userId w = (Ok tt, w') ->
  cache w' = delete ("article:" +:+ key) (cache w)
  /\ (exists reads mutation,
        trace w' = (trace w ++ reads ++ [mutation; CacheDel ("article:" +:+ key)])%list
        /\ Forall resolving_call reads
        /\ store_mutation mutation)
  /\ cache w' !! ("article:" +:+ key) = None
  /\ (forall k, k <> "article:" +:+ key -> cache w' !! k = cache w !! k)
  /\ (forall other, other <> key ->
      cache w' !! ("article:" +:+ other) = cache w !! ("article:" +:+ other))
  /\ (forall query,
      cache w' !! ("articles:" +:+ JSON_stringify (query_object query))
      = cache w !! ("articles:" +:+ JSON_stringify (query_object query))).
Proof.
  intros H.
  assert (invalidated key w w') as Hinv.
  { destruct H as [H|H].
    - eapply update_ok_invalidated; eassumption.
    - eapply remove_ok_invalidated; eassumption. }
  destruct Hinv as (Hc & Ht). unfold article_cache_key in Hc, Ht.
  split; [exact Hc|]. split; [exact Ht|]. rewrite Hc.
  split; [apply lookup_delete_eq|]. split; [|split].
  - intros k Hk. apply lookup_delete_ne. congruence.
  - intros other Hne. apply lookup_delete_ne. intros Heq. apply Hne. symmetry.
    apply article_cache_key_inj. exact Heq.
  - intros query. apply lookup_delete_ne.
    intros Heq. symmetry in Heq. revert Heq. apply (key_namespaces_disjoint query key).
Qed.

End Invalidation.

(** ** Pagination *)

Lemma insert_desc_perm (before : ArticleRow -> ArticleRow -> bool) (r : ArticleRow)
    (l : list ArticleRow) :
  Permutation (insert_desc before r l) (r :: l).
Proof.
  induction l as [|x l IH]; [reflexivity|]. cbn [insert_desc].
  destruct (_ || _); [reflexivity|]. rewrite IH. apply perm_swap.
Qed.

Lemma order_by_date_desc_perm (before : ArticleRow -> ArticleRow -> bool)
    (l : list ArticleRow) :
  Permutation (order_by_date_desc before l) l.
Proof.
  induction l as [|x l IH]; [reflexivity|].
  unfold order_by_date_desc in *. cbn [foldr]. rewrite insert_desc_perm, IH. reflexivity.
Qed.

Lemma insert_desc_sorted (before : ArticleRow -> ArticleRow -> bool) (r : ArticleRow)
    (l : list ArticleRow) :
  StronglySorted newer_first l -> StronglySorted newer_first (insert_desc before r l).
Proof.
  induction l as [|x l IH]; intros Hs; cbn [insert_desc].
  - repeat constructor.
  - apply StronglySorted_inv in Hs as [Hl Hx].
    destruct ((publicationDate x <? publicationDate r)%Z
              || ((publicationDate x =? publicationDate r)%Z && before r x)) eqn:Hb.
    + assert (publicationDate x <= publicationDate r)%Z as Hle.
      { apply orb_true_iff in Hb as [Hb|Hb]; [apply Z.ltb_lt in Hb; lia|].
        apply andb_true_iff in Hb as [Hb _]. apply Z.eqb_eq in Hb. lia. }
      constructor; [constructor; assumption|].
      constructor; [exact Hle|].
      eapply Forall_impl; [exact Hx|]. intros y Hy. unfold newer_first in *. lia.
    + apply orb_false_iff in Hb as [Hb _]. apply Z.ltb_ge in Hb.
      constructor; [apply IH, Hl|].
      rewrite insert_desc_perm. constructor; [exact Hb | exact Hx].
Qed.

Lemma order_by_date_desc_sorted (before : ArticleRow -> ArticleRow -> bool)
    (l : list ArticleRow) :
  StronglySorted newer_first (order_by_date_desc before l).
Proof.
  induction l as [|x l IH]; [constructor|].
  unfold order_by_date_desc in *. cbn [foldr]. apply insert_desc_sorted, IH.
Qed.


Lemma page_asked_of (query : QueryArticlesDto) (p : Z) :
  page_asked query p -> page_of query = p.
Proof.
  unfold page_of. intros [[Hin Hall]|[-> Hall]].
  - induction query as [|e q IH]; [destruct Hin|].
    destruct e as [v| | | | |]; cbn [query_page];
      try (apply IH; [destruct Hin as [Hin|Hin]; [discriminate Hin | exact Hin]
                     | intros v' Hv'; apply Hall; right; exact Hv']).
    rewrite (Hall v) by (left; reflexivity). reflexivity.
  - induction query as [|e q IH]; [reflexivity|].
    destruct e as [v| | | | |]; cbn [query_page];
      try (apply IH; intros v' Hv'; apply Hall; right; exact Hv').
    rewrite (Hall v) by (left; reflexivity). reflexivity.
Qed.

Lemma limit_asked_of (query : QueryArticlesDto) (l : Z) :
  limit_asked query l -> limit_of query = l.
Proof.
  unfold limit_of. intros [[Hin Hall]|[-> Hall]].
  - induction query as [|e q IH]; [destruct Hin|].
    destruct e as [|v| | | |]; cbn [query_limit];
      try (apply IH; [destruct Hin as [Hin|Hin]; [discriminate Hin | exact Hin]
                     | intros v' Hv'; apply Hall; right; exact Hv']).
    rewrite (Hall v) by (left; reflexivity). reflexivity.
  - induction query as [|e q IH]; [reflexivity|].
    destruct e as [|v| | | |]; cbn [query_limit];
      try (apply IH; intros v' Hv'; apply Hall; right; exact Hv').
    rewrite (Hall v) by (left; reflexivity). reflexivity.
Qed.




Section Pagination.

Variable timestamp_of : string -> Z.


End Pagination.

(** The cache of [stale_world] is what the unfiltered first page leaves on
    the empty store. *)
Lemma stale_world_cache :
  cache (snd (findAll day_stamp [] (sample_world 0))) = cache stale_world.
Proof.
  rewrite (findAll_miss day_stamp (sample_world 0) [] eq_refl (lookup_empty _)).
  reflexivity.
Qed.


(** ** The store predicate *)

Example ilike_literal : ilike "NestJS basics" "%nestjs%" = true.
Proof. vm_compute. reflexivity. Qed.

Example ilike_no_match : ilike "Intro" "%nestjs%" = false.
Proof. vm_compute. reflexivity. Qed.

Lemma like_percent (p t : string) :
  like (String percent p) t
  = like p t || match t with
                | EmptyString => false
                | String _ t' => like (String percent p) t'
                end.
Proof. destruct t; reflexivity. Qed.

Lemma like_percent_only (t : string) : like "%" t = true.
Proof.
  induction t as [|c t IH].
  - reflexivity.
  - change "%" with (String percent "") in *. rewrite like_percent, IH.
    apply orb_true_r.
Qed.

Lemma like_plain_char (c : ascii) (p t : string) :
  c <> percent -> c <> underscore -> c <> backslash ->
  like (String c p) t
  = match t with
    | EmptyString => false
    | String x t' => bool_decide (x = c) && like p t'
    end.
Proof.
  intros H1 H2 H3. cbn [like].
  destruct (decide (c = percent)); [contradiction|].
  destruct (decide (c = underscore)); [contradiction|].
  destruct (decide (c = backslash)); [contradiction|].
  reflexivity.
Qed.

Lemma like_plain_prefix (s t : string) :
  plain s -> like (s +:+ "%") t = starts_with s t.
Proof.
  revert t. induction s as [|c s IH]; intros t Hs.
  - change ("" +:+ "%") with "%". rewrite like_percent_only. destruct t; reflexivity.
  - destruct Hs as (H1 & H2 & H3 & Hs).
    change (String c s +:+ "%") with (String c (s +:+ "%")).
    rewrite like_plain_char by assumption.
    destruct t as [|x t]; [reflexivity|]. cbn [starts_with]. rewrite IH by assumption.
    reflexivity.
Qed.

Lemma like_contains (s t : string) :
  plain s -> like ("%" +:+ s +:+ "%") t = contains s t.
Proof.
  intros Hs. change ("%" +:+ s +:+ "%") with (String percent (s +:+ "%")).
  induction t as [|x t IH].
  - rewrite like_percent, like_plain_prefix by assumption. reflexivity.
  - rewrite like_percent, like_plain_prefix, IH by assumption. reflexivity.
Qed.

Lemma lowercase_app (a b : string) :
  lowercase (a +:+ b) = lowercase a +:+ lowercase b.
Proof.
  induction a as [|c a IH]; [reflexivity|].
  change (String c a +:+ b) with (String c (a +:+ b)). cbn [lowercase].
  rewrite IH. reflexivity.
Qed.

Lemma lower_plain (c : ascii) :
  c <> percent -> c <> underscore -> c <> backslash ->
  lower c <> percent /\ lower c <> underscore /\ lower c <> backslash.
Proof.
  destruct c as [[] [] [] [] [] [] [] []]; vm_compute; intros H1 H2 H3;
    repeat split; intros E; first [discriminate E | tauto].
Qed.

Lemma plain_lowercase (s : string) : plain s -> plain (lowercase s).
Proof.
  induction s as [|c s IH]; [trivial|]. intros (H1 & H2 & H3 & Hs).
  cbn [lowercase plain]. destruct (lower_plain c H1 H2 H3) as (L1 & L2 & L3).
  auto.
Qed.

(** On a text without [LIKE] characters, the pattern [findAll] builds is a
    case-insensitive substring match. *)
Lemma ilike_contains (s text : string) :
  plain s -> ilike text ("%" +:+ s +:+ "%") = contains_ignoring_case s text.
Proof.
  intros Hs. unfold ilike, contains_ignoring_case.
  rewrite !lowercase_app. change (lowercase "%") with "%".
  apply like_contains, plain_lowercase, Hs.
Qed.

Lemma contains_empty (text : string) : contains "" text = true.
Proof. destruct text; reflexivity. Qed.

Lemma bool_decide_le (a b : Z) : bool_decide (a <= b)%Z = (a <=? b)%Z.
Proof.
  destruct (Z.leb_spec a b);
    [apply bool_decide_eq_true_2 | apply bool_decide_eq_false_2]; lia.
Qed.

Lemma bool_decide_between (a x b : Z) :
  bool_decide (a <= x <= b)%Z = ((a <=? x) && (x <=? b))%Z.
Proof.
  destruct (Z.leb_spec a x), (Z.leb_spec x b); cbn [andb];
    [apply bool_decide_eq_true_2 | apply bool_decide_eq_false_2 ..]; lia.
Qed.

Section StorePredicate.

Variable timestamp_of : string -> Z.

(** C8, as the code has it: for a query whose identifier and dates, when
    supplied, are not empty, and whose search text holds none of the
    characters [%], [_] and backslash, the conditions [findAll] hands to the
    store select exactly the rows of the specification's predicate: the
    author when [authorId] is present, the publication date from
    [fromDate] on, up to [toDate], or between the two, bounds included, and
    a case-insensitive substring match against title or description when
    [search] is present. *)
Theorem C8_store_predicate (query : QueryArticlesDto) (r : ArticleRow) :
  well_formed_filters query ->
  (forall s, query_search query = Some s -> plain s) ->
  selected timestamp_of (where_conditions query) r = spec_predicate timestamp_of query r.
Proof.
  intros (Ha & Hf & Ht) Hs. unfold selected, where_conditions, spec_predicate.
  rewrite !forallb_app, <- andb_assoc.
  f_equal; [|f_equal].
  - destruct (query_authorId query) as [[|c a]|]; [contradiction | |]; cbn.
    + apply andb_true_r.
    + reflexivity.
  - destruct (query_fromDate query) as [[|c f]|]; [contradiction | |];
      (destruct (query_toDate query) as [[|c' t]|]; [contradiction | |]); cbn;
      rewrite ?bool_decide_between, ?bool_decide_le, ?andb_true_r; reflexivity.
  - destruct (query_search query) as [[|c s]|] eqn:E; cbn [truthy forallb holds].
    + unfold contains_ignoring_case. cbn [lowercase]. rewrite contains_empty. reflexivity.
    + rewrite !ilike_contains by (apply Hs; reflexivity). apply andb_true_r.
    + reflexivity.
Qed.

End StorePredicate.

(** C8, as the spec states it, fails: a search text is a [LIKE] pattern, and
    the text [_] selects a row whose title and description hold no
    underscore. *)
Lemma C8_search_is_a_pattern :
  ~ (forall (query : QueryArticlesDto) (r : ArticleRow),
       well_formed_filters query ->
       selected day_stamp (where_conditions query) r = spec_predicate day_stamp query r).
Proof.
  intros H.
  specialize (H [QSearch (Some "_")] (sample_row 0)).
  assert (well_formed_filters [QSearch (Some "_")]) as Hw
    by (repeat split; discriminate).
  specialize (H Hw). vm_compute in H. discriminate H.
Qed.

(** ** Failures of the collaborators *)

Lemma call_scheduled e w o rest :
  schedule w = o :: rest -> call e w = (Ok o, with_schedule rest (logged [e] w)).
Proof. intros H. unfold call. rewrite H. reflexivity. Qed.

Section Failures.

Variable timestamp_of : string -> Z.

(** C6, as the code has it: no error of the cache is caught.  When the cache
    read is rejected, [findOne] and [findAll] fail with the cache's error
    and the store is not asked; when the read misses and the cache write is
    rejected, they fail with the cache's error after the store was queried.
    A rejected store query fails them as well. *)
Theorem C6_cache_errors_are_fatal (w : World) (rest : list Outcome) :
  (schedule w = Rejected :: rest ->
   (forall key,
      findOne key w
      = (Throw CacheError, with_schedule rest (logged [CacheGet (article_cache_key key)] w)))
   /\ (forall query,
        findAll timestamp_of query w
        = (Throw CacheError,
           with_schedule rest (logged [CacheGet (list_cache_key query)] w))))
  /\ (schedule w = Served :: Served :: Rejected :: rest ->
      (forall key row,
         cache w !! article_cache_key key = None ->
         find_row key (articles w) = Some row ->
         fst (findOne key w) = Throw CacheError)
      /\ (forall query,
           cache w !! list_cache_key query = None ->
           fst (findAll timestamp_of query w) = Throw CacheError))
  /\ (schedule w = Served :: Rejected :: rest ->
      (forall key,
         cache w !! article_cache_key key = None ->
         fst (findOne key w) = Throw StoreError)
      /\ (forall query,
           cache w !! list_cache_key query = None ->
           fst (findAll timestamp_of query w) = Throw StoreError)).
Proof.
  split; [|split]; intros Hs; split.
  - intros key. unfold findOne, cache_get, bind.
    rewrite (call_scheduled _ w _ _ Hs). reflexivity.
  - intros query. unfold findAll, cache_get, bind.
    rewrite (call_scheduled _ w _ _ Hs). reflexivity.
  - intros key row Hc Hr. unfold findOne, cache_get, repo_findOne, cache_set, bind.
    rewrite (call_scheduled _ w _ _ Hs). world. rewrite Hc. world.
    erewrite call_scheduled by (world; reflexivity). world. rewrite Hr. world.
    erewrite call_scheduled by (world; reflexivity). reflexivity.
  - intros query Hc. unfold findAll, cache_get, repo_getManyAndCount, cache_set, bind.
    rewrite (call_scheduled _ w _ _ Hs). world. rewrite Hc. world.
    erewrite call_scheduled by (world; reflexivity). world.
    erewrite call_scheduled by (world; reflexivity). reflexivity.
  - intros key Hc. unfold findOne, cache_get, repo_findOne, bind.
    rewrite (call_scheduled _ w _ _ Hs). world. rewrite Hc. world.
    erewrite call_scheduled by (world; reflexivity). reflexivity.
  - intros query Hc. unfold findAll, cache_get, repo_getManyAndCount, bind.
    rewrite (call_scheduled _ w _ _ Hs). world. rewrite Hc. world.
    erewrite call_scheduled by (world; reflexivity). reflexivity.
Qed.

End Failures.

(** C6, as the spec states it, fails: with a store that holds the article and
    answers every call, a rejected cache read is not taken for a miss, it
    fails [findOne]. *)
Lemma C6_cache_error_fails_request :
  ~ (forall (w : World) (key : string) (row : ArticleRow),
       find_row key (articles w) = Some row ->
       schedule w = [Rejected] ->
       exists v, fst (findOne key w) = Ok v).
Proof.
  intros H.
  destruct (H (with_schedule [Rejected] (sample_world 1)) "article-0" (sample_row 0)
              eq_refl eq_refl) as [v Hv].
  vm_compute in Hv. discriminate Hv.
Qed.

(** Nor is a rejected cache write skipped. *)
Lemma cache_write_error_fails_request :
  fst (findOne "article-0"
         (with_schedule [Served; Served; Rejected] (sample_world 1)))
  = Throw CacheError.
Proof. vm_compute. reflexivity. Qed.

(** ** Creation *)

Lemma find_row_app_new (key : string) (rows : list ArticleRow) (r : ArticleRow) :
  find_row key rows = None -> id r = key -> find_row key (rows ++ [r]) = Some r.
Proof.
  unfold find_row. intros Hnone Hid. induction rows as [|x rows IH]; simpl in *.
  - rewrite bool_decide_eq_true_2 by assumption. reflexivity.
  - destruct (bool_decide (id x = key)); [discriminate Hnone|]. apply IH, Hnone.
Qed.

Section Creation.

Variable timestamp_of : string -> Z.

(** The row [create] writes. *)
Lemma repo_insert_run (w : World) (draft : ArticleDraft) (o : Outcome) (rest : list Outcome) :
  schedule w = [] /\ o = Served /\ rest = [] \/ schedule w = o :: rest ->
  o <> Rejected ->
  find_row (generated_id (generated w)) (articles w) = None ->
  let row := {| id := generated_id (generated w);
                title := draft_title draft;
                description := draft_description draft;
                publicationDate := timestamp_of (draft_publicationDate draft);
                authorId := draft_authorId draft;
                createdAt := clock w;
                updatedAt := clock w |} in
  repo_insert timestamp_of draft w
  = (Ok {| columns := row; author := None |},
     with_articles (articles w ++ [row])
       (with_generated (S (generated w))
          (with_clock (clock w + 1) (with_schedule rest (logged [RepoSave (id row)] w))))).
Proof.
  intros Hs Ho Hfresh. cbv zeta. unfold repo_insert, bind, call.
  assert (hd Served (schedule w) = o /\ tl (schedule w) = rest) as [-> ->].
  { destruct Hs as [(Hs & -> & ->)|Hs]; rewrite Hs; split; reflexivity. }
  destruct o; [| exfalso; apply Ho; reflexivity |]; world; cbn [id];
    rewrite Hfresh; reflexivity.
Qed.

(** C10, as the code has it: when the store generates an identifier that is
    free, [create] persists a row with that identifier, the fields of the
    request and [authorId] the principal's id.  In a healthy environment it
    returns that row joined with its author.  When the read that follows
    the write does not see the row, it fails with a not-found exception,
    status 404, whose message ends in "not found after creation"; the row
    stays persisted. *)
Theorem C10_create (w : World) (dto : CreateArticleDto) (userId : string) :
  find_row (generated_id (generated w)) (articles w) = None ->
  let row := {| id := generated_id (generated w);
                title := new_title dto;
                description := new_description dto;
                publicationDate := timestamp_of (new_publicationDate dto);
                authorId := userId;
                createdAt := clock w;
                updatedAt := clock w |} in
  (schedule w = [] ->
   fst (create timestamp_of dto userId w)
   = Ok {| columns := row; author := find_user userId (users w) |}
   /\ find_row (id row) (articles (snd (create timestamp_of dto userId w))) = Some row)
  /\ (forall rest, schedule w = Served :: Stale :: rest ->
      fst (create timestamp_of dto userId w)
      = Throw (NotFoundException
                 ("Article with ID " +:+ id row +:+ " not found after creation"))
      /\ (forall e, fst (create timestamp_of dto userId w) = Throw e -> http_status e = 404)
      /\ find_row (id row) (articles (snd (create timestamp_of dto userId w))) = Some row).
Proof.
  intros Hfresh row. split.
  - intros Hs. unfold create, bind.
    rewrite (repo_insert_run w (repo_create dto userId) Served [])
      by (try (left; repeat split; assumption); try discriminate; assumption).
    cbn [repo_create draft_title draft_description draft_publicationDate draft_authorId
         columns]. fold row.
    rewrite repo_findOne_served by (world; reflexivity). world.
    rewrite (find_row_app_new (id row) (articles w) row Hfresh eq_refl). world.
    split; [reflexivity|]. cbn [ret snd]. world.
    apply find_row_app_new; [assumption | reflexivity].
  - intros rest Hs. unfold create, bind.
    rewrite (repo_insert_run w (repo_create dto userId) Served (Stale :: rest))
      by (try (right; assumption); try discriminate; assumption).
    cbn [repo_create draft_title draft_description draft_publicationDate draft_authorId
         columns]. fold row.
    unfold repo_findOne, bind. erewrite call_scheduled by (world; reflexivity).
    cbn [ret throw fst snd]. split; [reflexivity|]. split.
    + intros e [= <-]. reflexivity.
    + world. apply find_row_app_new; [assumption | reflexivity].
Qed.

End Creation.

(** C10, as the spec states it, fails: when the row cannot be read back, the
    failure of [create] is a not-found exception, status 404, not an
    internal error. *)
Lemma C10_reread_miss_is_not_found :
  ~ (forall (w : World) (dto : CreateArticleDto) (userId : string)
            (saved : Article) (w1 : World),
       repo_insert day_stamp (repo_create dto userId) w = (Ok saved, w1) ->
       fst (repo_findOne (id (columns saved)) w1) = Ok None ->
       exists e, fst (create day_stamp dto userId w) = Throw e
                 /\ http_status e = 500).
Proof.
  intros H.
  pose (w := with_schedule [Served; Stale] (sample_world 0)).
  pose (dto := {| new_title := "Intro"; new_description := "NestJS basics";
                  new_publicationDate := "2024-01-01" |}).
  destruct (repo_insert day_stamp (repo_create dto "user-123") w) as [r w1] eqn:Hi.
  vm_compute in Hi. injection Hi as <- <-.
  edestruct (H w dto "user-123") as (e & He & Hst).
  - vm_compute. reflexivity.
  - vm_compute. reflexivity.
  - vm_compute in He. injection He as <-. vm_compute in Hst. discriminate Hst.
Qed.

(** ** The properties at work on the sample worlds *)

Lemma C2_cache_aside_read_witness :
  findAll day_stamp [] warm_world
  = (Ok (APage sample_page), logged [CacheGet (list_cache_key [])] warm_world)
  /\ findOne "article-0" warm_world
     = (Ok (AnArticle (sample_article 0)),
        logged [CacheGet (article_cache_key "article-0")] warm_world)
  /\ fst (findOne "article-0" (sample_world 1)) = Ok (AnArticle (sample_article 0))
  /\ cache (snd (findOne "article-0" (sample_world 1)))
     = <[article_cache_key "article-0" := (AnArticle (sample_article 0), 300000)]> ∅
  /\ is_not_found (fst (findOne "article-7" (sample_world 1))).
Proof.
  destruct (C2_cache_aside_read day_stamp warm_world eq_refl) as [Hall Hone].
  destruct (C2_cache_aside_read day_stamp (sample_world 1) eq_refl) as [_ Hcold].
  specialize (Hall []). specialize (Hone "article-0").
  pose proof (Hcold "article-7") as Hmissing. specialize (Hcold "article-0").
  cbv zeta in Hall, Hone, Hcold, Hmissing.
  assert (cache warm_world !! list_cache_key [] = Some (APage sample_page, TTL)) as E1
    by (vm_compute; reflexivity).
  assert (cache warm_world !! article_cache_key "article-0"
          = Some (AnArticle (sample_article 0), TTL)) as E2
    by (vm_compute; reflexivity).
  assert (find_row "article-0" (articles (sample_world 1)) = Some (sample_row 0)) as E3
    by (vm_compute; reflexivity).
  assert (find_row "article-7" (articles (sample_world 1)) = None) as E4
    by (vm_compute; reflexivity).
  rewrite E1 in Hall. rewrite E2 in Hone.
  change (cache (sample_world 1)) with (∅ : gmap string (Payload * Z)) in Hcold, Hmissing.
  rewrite lookup_empty in Hcold, Hmissing. rewrite E3 in Hcold. rewrite E4 in Hmissing.
  split; [exact Hall|]. split; [exact Hone|].
  rewrite Hcold. cbn [fst snd]. split; [reflexivity|]. split; [reflexivity|].
  exact Hmissing.
Defined.

Lemma C3_not_found_is_not_cached_witness :
  is_not_found (fst (findOne "article-7" (sample_world 1)))
  /\ cache (snd (findOne "article-7" (sample_world 1))) = cache (sample_world 1)
  /\ ~ is_not_found (fst (findOne "article-0" (sample_world 1))).
Proof.
  destruct (C3_not_found_is_not_cached (sample_world 1) "article-7" eq_refl)
    as [Hiff Hframe].
  destruct (C3_not_found_is_not_cached (sample_world 1) "article-0" eq_refl)
    as [Hiff0 _].
  assert (is_not_found (fst (findOne "article-7" (sample_world 1)))) as Hnf.
  { apply Hiff. split; vm_compute; reflexivity. }
  split; [exact Hnf|]. split; [apply Hframe, Hnf|].
  intros H. apply Hiff0 in H as [_ H]. vm_compute in H. discriminate H.
Defined.

Lemma sample_update_sets_a_field : ~ all_unset sample_update.
Proof. intros H. inversion H as [|e l He Hl]. discriminate He. Defined.

Lemma C4_ownership_after_existence_witness :
  is_forbidden (fst (update day_stamp "article-0" sample_update "different-user" warm_world))
  /\ is_forbidden (fst (remove "article-0" "different-user" (sample_world 1)))
  /\ ~ is_forbidden (fst (remove "article-0" "user-123" (sample_world 1)))
  /\ is_not_found (fst (remove "article-7" "user-123" (sample_world 1)))
  /\ is_not_found (fst (update day_stamp "article-7" sample_update "user-123" (sample_world 1)))
  /\ is_bad_request (fst (update day_stamp "article-0" [] "different-user" (sample_world 1))).
Proof.
  pose proof (C4_ownership_after_existence day_stamp warm_world "article-0"
                "different-user" sample_update eq_refl) as [Hwarm _].
  pose proof (C4_ownership_after_existence day_stamp (sample_world 1) "article-0"
                "different-user" sample_update eq_refl) as [Hcold _].
  pose proof (C4_ownership_after_existence day_stamp (sample_world 1) "article-0"
                "user-123" sample_update eq_refl) as [Hown _].
  pose proof (C4_ownership_after_existence day_stamp (sample_world 1) "article-7"
                "user-123" sample_update eq_refl) as [Hnone _].
  pose proof (C4_ownership_after_existence day_stamp (sample_world 1) "article-0"
                "different-user" [] eq_refl) as [_ Hempty].
  assert (resolved warm_world "article-0" = Some (AnArticle (sample_article 0))) as E1
    by (vm_compute; reflexivity).
  assert (resolved (sample_world 1) "article-0" = Some (AnArticle (sample_article 0))) as E2
    by (vm_compute; reflexivity).
  assert (resolved (sample_world 1) "article-7" = None) as E3
    by (vm_compute; reflexivity).
  rewrite E1 in Hwarm. rewrite E2 in Hcold, Hown. rewrite E3 in Hnone.
  destruct Hwarm as (_ & _ & Hu). destruct (Hu sample_update_sets_a_field) as [Hu' _].
  destruct Hcold as (Hr & _). destruct Hown as (Ho & _). destruct Hnone as (Hn & Hnu).
  split; [apply Hu'; vm_compute; discriminate|].
  split; [apply Hr; vm_compute; discriminate|].
  split; [intros H; apply Ho in H; apply H; vm_compute; reflexivity|].
  split; [exact Hn|].
  split; [exact (Hnu sample_update_sets_a_field)|].
  apply Hempty. constructor.
Defined.

Lemma C5_empty_update_rejected_witness :
  all_unset [UTitle None; UDescription None]
  /\ update day_stamp "article-0" [UTitle None; UDescription None] "user-123" warm_world
     = (Throw (BadRequestException "At least one field must be provided for update"),
        warm_world).
Proof.
  assert (all_unset [UTitle None; UDescription None]) as H
    by (repeat constructor).
  split; [exact H|]. apply C5_empty_update_rejected, H.
Defined.

Lemma C6_cache_errors_are_fatal_witness :
  findOne "article-0" (with_schedule [Rejected] (sample_world 1))
  = (Throw CacheError,
     with_schedule []
       (logged [CacheGet (article_cache_key "article-0")]
          (with_schedule [Rejected] (sample_world 1))))
  /\ fst (findOne "article-0" (with_schedule [Served; Served; Rejected] (sample_world 1)))
     = Throw CacheError
  /\ fst (findAll day_stamp [] (with_schedule [Served; Served; Rejected] (sample_world 1)))
     = Throw CacheError
  /\ fst (findOne "article-0" (with_schedule [Served; Rejected] (sample_world 1)))
     = Throw StoreError.
Proof.
  destruct (C6_cache_errors_are_fatal day_stamp
              (with_schedule [Rejected] (sample_world 1)) []) as (Hread & _ & _).
  destruct (C6_cache_errors_are_fatal day_stamp
              (with_schedule [Served; Served; Rejected] (sample_world 1)) [])
    as (_ & Hwrite & _).
  destruct (C6_cache_errors_are_fatal day_stamp
              (with_schedule [Served; Rejected] (sample_world 1)) []) as (_ & _ & Hstore).
  destruct (Hread eq_refl) as [Hr _]. destruct (Hwrite eq_refl) as [Hw1 Hw2].
  destruct (Hstore eq_refl) as [Hs _].
  split; [apply Hr|].
  split; [apply (Hw1 "article-0" (sample_row 0)); vm_compute; reflexivity|].
  split; [apply Hw2; vm_compute; reflexivity|].
  apply Hs. vm_compute. reflexivity.
Defined.


Lemma C8_store_predicate_witness :
  selected day_stamp
    (where_conditions
       [QAuthorId (Some "user-123"); QFromDate (Some "2024-01-01");
        QToDate (Some "2024-01-01"); QSearch (Some "test")])
    (sample_row 0)
  = spec_predicate day_stamp
      [QAuthorId (Some "user-123"); QFromDate (Some "2024-01-01");
       QToDate (Some "2024-01-01"); QSearch (Some "test")]
      (sample_row 0)
  /\ spec_predicate day_stamp
       [QAuthorId (Some "user-123"); QFromDate (Some "2024-01-01");
        QToDate (Some "2024-01-01"); QSearch (Some "test")]
       (sample_row 0)
     = true.
Proof.
  split; [|vm_compute; reflexivity].
  apply C8_store_predicate.
  - repeat split; discriminate.
  - intros s [= <-]. repeat split; discriminate.
Defined.

Lemma warm_world_article :
  cache warm_world !! article_cache_key "article-0"
  = Some (AnArticle (sample_article 0), TTL).
Proof. vm_compute. reflexivity. Qed.

Lemma warm_world_page :
  cache warm_world !! list_cache_key [] = Some (APage sample_page, TTL).
Proof. vm_compute. reflexivity. Qed.

(** The author updates article 0 of the warm world: the title differs from
    the stored one, so the row is written and stamped. *)
Lemma warm_world_update :
  update day_stamp "article-0" sample_update "user-123" warm_world
  = (Ok updated_article,
     snd (update day_stamp "article-0" sample_update "user-123" warm_world))
  /\ schedule (snd (update day_stamp "article-0" sample_update "user-123" warm_world)) = []
  /\ trace (snd (update day_stamp "article-0" sample_update "user-123" warm_world))
     = [CacheGet "article:article-0"; RepoSave "article-0"; CacheDel "article:article-0"].
Proof.
  pose proof (findOne_hit warm_world "article-0" _ _ eq_refl warm_world_article) as Hf.
  rewrite (update_after_findOne day_stamp warm_world _ "article-0" sample_update
             "user-123" _ eq_refl Hf).
  cbv beta iota. rewrite bool_decide_eq_true_2 by reflexivity.
  unfold bind, invalidateArticleCache.
  rewrite repo_save_served by reflexivity.
  assert (find_row (entity_id (Object_assign (sample_article 0) sample_update))
            (articles (logged [CacheGet (article_cache_key "article-0")] warm_world))
          = Some (sample_row 0)) as -> by (vm_compute; reflexivity).
  assert (bool_decide
            (written_row day_stamp (Object_assign (sample_article 0) sample_update)
               (sample_row 0) = sample_row 0) = false) as ->
    by (vm_compute; reflexivity).
  rewrite cache_del_served by reflexivity. cbn [ret snd].
  split; [reflexivity|]. split; reflexivity.
Qed.

Lemma warm_world_remove :
  remove "article-0" "user-123" warm_world
  = (Ok tt, snd (remove "article-0" "user-123" warm_world))
  /\ schedule (snd (remove "article-0" "user-123" warm_world)) = []
  /\ trace (snd (remove "article-0" "user-123" warm_world))
     = [CacheGet "article:article-0"; RepoRemove "article-0"; CacheDel "article:article-0"].
Proof.
  pose proof (findOne_hit warm_world "article-0" _ _ eq_refl warm_world_article) as Hf.
  rewrite (remove_after_findOne warm_world _ "article-0" "user-123" _ Hf).
  cbv beta iota. rewrite bool_decide_eq_true_2 by reflexivity.
  unfold bind, invalidateArticleCache.
  rewrite repo_remove_served by reflexivity.
  rewrite cache_del_served by reflexivity. cbn [snd].
  split; [reflexivity|]. split; reflexivity.
Qed.

Lemma C9_invalidation_frame_witness :
  cache (snd (update day_stamp "article-0" sample_update "user-123" warm_world))
  = delete "article:article-0" (cache warm_world)
  /\ cache (snd (update day_stamp "article-0" sample_update "user-123" warm_world))
       !! "articles:{}"
     = Some (APage sample_page, TTL)
  /\ cache (snd (remove "article-0" "user-123" warm_world)) !! "article:article-0" = None
  /\ (exists reads mutation,
        trace (snd (remove "article-0" "user-123" warm_world))
        = (trace warm_world ++ reads ++ [mutation; CacheDel "article:article-0"])%list
        /\ Forall resolving_call reads
        /\ store_mutation mutation).
Proof.
  destruct warm_world_update as (Hu & _). destruct warm_world_remove as (Hr & _).
  destruct (C9_invalidation_frame day_stamp warm_world _ "article-0" "user-123"
              sample_update _ (or_introl Hu)) as (Hcache & _ & _ & _ & _ & Hpages).
  destruct (C9_invalidation_frame day_stamp warm_world _ "article-0" "user-123"
              sample_update updated_article (or_intror Hr)) as (_ & Htrace & Hgone & _).
  split; [exact Hcache|].
  split; [|split; [exact Hgone | exact Htrace]].
  specialize (Hpages []).
  change ("articles:" +:+ JSON_stringify (query_object [])) with "articles:{}" in Hpages.
  rewrite Hpages. exact warm_world_page.
Defined.

Lemma C10_create_witness :
  fst (create day_stamp sample_dto "user-123" (sample_world 0))
  = Ok {| columns := {| id := "article-0"; title := "Intro";
                        description := "NestJS basics"; publicationDate := 20240101;
                        authorId := "user-123"; createdAt := 20240201;
                        updatedAt := 20240201 |};
          author := Some john |}
  /\ fst (create day_stamp sample_dto "user-123"
            (with_schedule [Served; Stale] (sample_world 0)))
     = Throw (NotFoundException "Article with ID article-0 not found after creation").
Proof.
  destruct (C10_create day_stamp (sample_world 0) sample_dto "user-123" eq_refl)
    as [Hok _].
  destruct (C10_create day_stamp (with_schedule [Served; Stale] (sample_world 0))
              sample_dto "user-123" eq_refl) as [_ Hstale].
  destruct (Hok eq_refl) as [H1 _]. destruct (Hstale [] eq_refl) as [H2 _].
  split.
  - rewrite H1. vm_compute. reflexivity.
  - rewrite H2. vm_compute. reflexivity.
Defined.

(** * Further properties of the service *)

(** ** What a run can change *)

Ltac unfold_service :=
  unfold create, update, remove;
  unfold findOne, findAll, invalidateArticleCache;
  unfold cache_get, cache_set, cache_del, repo_findOne, repo_insert, repo_save,
    repo_remove, repo_getManyAndCount;
  unfold bind, call, ret, throw.

Ltac step_any :=
  world; cbn [negb];
  match goal with
  | |- context [hd Served ?s] => destruct (hd Served s)
  | |- context [cache ?w !! ?k] => destruct (cache w !! k) as [[? ?]|]
  | |- context [find_row ?k ?r] => destruct (find_row k r)
  | |- context [new_row ?t ?e ?c] => destruct (new_row t e c)
  | |- context [bool_decide ?P] => destruct (bool_decide P)
  | |- context [hasFields ?d] => destruct (hasFields d)
  | |- context [match ?p with AnArticle _ => _ | APage _ => _ end] => destruct p
  end.

Ltac run_any := unfold_service; repeat step_any; world; cbn [negb].

Section Frames.

Variable timestamp_of : string -> Z.

(** The reads never write to the store: whatever the environment answers
    and however they end, [findOne] and [findAll] leave the rows and the
    users as they were. *)
Theorem reads_keep_the_store (w : World) (key : string) (query : QueryArticlesDto) :
  same_store w (snd (findOne key w))
  /\ same_store w (snd (findAll timestamp_of query w)).
Proof. split; run_any; split; reflexivity. Qed.

Lemma update_failure_frame (w : World) (key userId : string) (dto : UpdateArticleDto) :
  match update timestamp_of key dto userId w with
  | (Throw e, w') => http_status e <> 500 -> same_store w w'
  | (Ok _, _) => True
  end.
Proof.
  run_any; try exact I; cbn [http_status]; intros H;
    try (exfalso; apply H; reflexivity); split; reflexivity.
Qed.

Lemma remove_failure_frame (w : World) (key userId : string) :
  match remove key userId w with
  | (Throw e, w') => http_status e <> 500 -> same_store w w'
  | (Ok _, _) => True
  end.
Proof.
  run_any; try exact I; cbn [http_status]; intros H;
    try (exfalso; apply H; reflexivity); split; reflexivity.
Qed.

(** A mutation that is refused leaves the store alone: whatever the
    environment, when [update] or [remove] fails with one of the HTTP
    exceptions of the service (bad request, forbidden, not found), the rows
    and the users are as they were. *)
Theorem refused_mutation_keeps_the_store (w w' : World) (key userId : string)
    (dto : UpdateArticleDto) (e : Exception) :
  update timestamp_of key dto userId w = (Throw e, w')
  \/ remove key userId w = (Throw e, w') ->
  http_status e <> 500 ->
  same_store w w'.
Proof.
  intros [H|H] He.
  - pose proof (update_failure_frame w key userId dto) as F. rewrite H in F. auto.
  - pose proof (remove_failure_frame w key userId) as F. rewrite H in F. auto.
Qed.

Lemma create_trace (w : World) (dto : CreateArticleDto) (userId : string) :
  exists calls,
    trace (snd (create timestamp_of dto userId w)) = (trace w ++ calls)%list
    /\ Forall creating_call calls.
Proof.
  run_any; eexists; rewrite <- ?app_assoc; (split; [reflexivity|]);
    repeat constructor.
Qed.

(** [create] never talks to the cache: whatever the environment and however
    it ends, the cache is as it was and the calls made are the store write
    and the store read.  A page cached before does not get the new article
    until it expires. *)
Theorem create_leaves_the_cache (w : World) (dto : CreateArticleDto) (userId : string) :
  cache (snd (create timestamp_of dto userId w)) = cache w
  /\ exists calls,
      trace (snd (create timestamp_of dto userId w)) = (trace w ++ calls)%list
      /\ Forall creating_call calls.
Proof.
  split; [|apply create_trace]. run_any; reflexivity.
Qed.

End Frames.

(** ** Rows and keys *)

Lemma find_row_id (key : string) (rows : list ArticleRow) (r : ArticleRow) :
  find_row key rows = Some r -> id r = key.
Proof.
  unfold find_row. intros H. apply find_some in H as [_ H].
  apply bool_decide_eq_true in H. exact H.
Qed.

Lemma find_row_replace (key : string) (r : ArticleRow) (rows : list ArticleRow) :
  find_row key (replace_row r rows)
  = if bool_decide (key = id r)
    then match find_row key rows with Some _ => Some r | None => None end
    else find_row key rows.
Proof.
  unfold find_row, replace_row. induction rows as [|x rows IH]; simpl.
  - destruct (bool_decide (key = id r)); reflexivity.
  - destruct (decide (id x = id r)) as [Hx|Hx], (decide (key = id r)) as [Hk|Hk].
    + rewrite (bool_decide_eq_true_2 (id x = id r)) by assumption. simpl.
      rewrite !bool_decide_eq_true_2 by congruence. reflexivity.
    + rewrite (bool_decide_eq_true_2 (id x = id r)) by assumption. simpl.
      rewrite (bool_decide_eq_false_2 (id r = key)) by congruence.
      rewrite (bool_decide_eq_false_2 (id x = key)) by congruence.
      rewrite IH, bool_decide_eq_false_2 by assumption. reflexivity.
    + rewrite (bool_decide_eq_false_2 (id x = id r)) by assumption. simpl.
      rewrite (bool_decide_eq_false_2 (id x = key)) by congruence.
      rewrite IH, bool_decide_eq_true_2 by assumption. reflexivity.
    + rewrite (bool_decide_eq_false_2 (id x = id r)) by assumption. simpl.
      destruct (bool_decide (id x = key)).
      * rewrite bool_decide_eq_false_2 by assumption. reflexivity.
      * rewrite IH, bool_decide_eq_false_2 by assumption. reflexivity.
Qed.

Lemma find_row_app (key : string) (rows more : list ArticleRow) :
  find_row key (rows ++ more)
  = match find_row key rows with Some r => Some r | None => find_row key more end.
Proof.
  unfold find_row. induction rows as [|x rows IH]; [reflexivity|]. cbn [app List.find].
  destruct (bool_decide (id x = key)); [reflexivity | exact IH].
Qed.

Lemma find_row_app_other (key : string) (rows : list ArticleRow) (r : ArticleRow) :
  id r <> key -> find_row key (rows ++ [r]) = find_row key rows.
Proof.
  intros Hne. rewrite find_row_app. destruct (find_row key rows); [reflexivity|].
  unfold find_row. cbn [List.find]. rewrite bool_decide_eq_false_2 by assumption.
  reflexivity.
Qed.

Lemma find_row_delete (key gone : string) (rows : list ArticleRow) :
  find_row key (delete_row gone rows)
  = if bool_decide (key = gone) then None else find_row key rows.
Proof.
  unfold find_row, delete_row. induction rows as [|x rows IH]; cbn [List.filter List.find].
  - destruct (bool_decide (key = gone)); reflexivity.
  - destruct (bool_decide (id x = gone)) eqn:Hx; cbn [negb List.find].
    + apply bool_decide_eq_true in Hx. rewrite IH.
      destruct (bool_decide (key = gone)) eqn:Hk; [reflexivity|].
      apply bool_decide_eq_false in Hk.
      rewrite bool_decide_eq_false_2 by congruence. reflexivity.
    + apply bool_decide_eq_false in Hx.
      destruct (bool_decide (id x = key)) eqn:Hxk; [|exact IH].
      apply bool_decide_eq_true in Hxk.
      rewrite bool_decide_eq_false_2 by congruence. reflexivity.
Qed.

(** ** Successful runs, in any environment *)

Ltac step_eq :=
  world; cbn [negb];
  match goal with
  | |- context [hd Served ?s] => destruct (hd Served s)
  | |- context [cache ?w !! ?k] => destruct (cache w !! k) as [[? ?]|] eqn:?
  | |- context [find_row ?k ?r] => destruct (find_row k r) eqn:?
  end.

Lemma findOne_ok_full (key : string) (w w1 : World) (v : Payload) :
  findOne key w = (Ok v, w1) ->
  same_store w w1
  /\ clock w1 = clock w
  /\ ((exists ttl, cache w !! article_cache_key key = Some (v, ttl)) /\ cache w1 = cache w
      \/ cache w !! article_cache_key key = None
         /\ exists r, find_row key (articles w) = Some r
                      /\ v = AnArticle (with_author (users w) r)
                      /\ cache w1 = <[article_cache_key key := (v, TTL)]> (cache w)).
Proof.
  unfold_service. repeat step_eq; intros H; simplify_eq;
    (split; [split; reflexivity|]); (split; [reflexivity|]);
    first [ left; split; [eexists; reflexivity | reflexivity]
          | right; split; [reflexivity|]; eexists; repeat split; reflexivity ].
Qed.

Lemma repo_remove_ok_full (a : Article) (u : unit) (w w1 : World) :
  repo_remove a w = (Ok u, w1) ->
  articles w1 = delete_row (id (columns a)) (articles w)
  /\ users w1 = users w /\ cache w1 = cache w.
Proof.
  unfold repo_remove, bind, call, throw.
  destruct (hd Served (schedule w)); intros H; simplify_eq; repeat split; reflexivity.
Qed.

Lemma cache_del_ok_full (key : string) (u : unit) (w w1 : World) :
  cache_del key w = (Ok u, w1) ->
  same_store w w1 /\ cache w1 = delete key (cache w).
Proof.
  unfold cache_del, bind, call, throw.
  destruct (hd Served (schedule w)); intros H; simplify_eq; repeat split; reflexivity.
Qed.

Section SuccessfulRuns.

Variable timestamp_of : string -> Z.

Lemma written_row_persisted (e : Entity) (stored : ArticleRow) :
  id stored = entity_id e -> persisted timestamp_of e (written_row timestamp_of e stored).
Proof.
  intros Hid. unfold persisted, written_row.
  cbn [id authorId title description publicationDate].
  split; [exact Hid|]. split; [reflexivity|].
  split; [|split]; intros v ->; reflexivity.
Qed.

Lemma new_row_persisted (e : Entity) (now : Z) (row : ArticleRow) :
  new_row timestamp_of e now = Some row ->
  id row = entity_id e /\ persisted timestamp_of e row.
Proof.
  unfold new_row, persisted.
  destruct (entity_title e) as [t|], (entity_description e) as [d|],
    (entity_publicationDate e) as [p|]; try discriminate.
  intros [= <-]. cbn [id authorId title description publicationDate].
  repeat split; intros v [= ->]; reflexivity.
Qed.

(** What a successful [save] did: the entity comes back, stamped if the
    row was written; the row of its identifier holds what the entity
    holds, and where the entity holds [undefined] what the store had; the
    other rows are as they were. *)
Lemma repo_save_ok_full (e r : Entity) (w w1 : World) :
  repo_save timestamp_of e w = (Ok r, w1) ->
  (r = e \/ r = restamped (clock w) e)
  /\ users w1 = users w /\ cache w1 = cache w
  /\ (exists row,
        find_row (entity_id e) (articles w1) = Some row
        /\ persisted timestamp_of e row
        /\ forall stored,
             find_row (entity_id e) (articles w) = Some stored ->
             stamped 0 row = stamped 0 (written_row timestamp_of e stored))
  /\ (forall k, k <> entity_id e -> find_row k (articles w1) = find_row k (articles w)).
Proof.
  unfold repo_save, bind, call, throw.
  assert (forall w0 : World,
            articles w0 = articles w -> users w0 = users w -> cache w0 = cache w ->
            clock w0 = clock w ->
            match find_row (entity_id e) (articles w0) with
            | Some stored =>
              if bool_decide (written_row timestamp_of e stored = stored)
              then (Ok e, w0)
              else
                (Ok (restamped (clock w0) e),
                 with_articles
                   (replace_row (stamped (clock w0) (written_row timestamp_of e stored))
                      (articles w0))
                   (with_clock (clock w0 + 1) w0))
            | None =>
              match new_row timestamp_of e (clock w0) with
              | Some row =>
                (Ok (restamped (clock w0) e),
                 with_articles (articles w0 ++ [row]) (with_clock (clock w0 + 1) w0))
              | None => (Throw StoreError, w0)
              end
            end = (Ok r, w1) ->
            (r = e \/ r = restamped (clock w) e)
            /\ users w1 = users w /\ cache w1 = cache w
            /\ (exists row,
                  find_row (entity_id e) (articles w1) = Some row
                  /\ persisted timestamp_of e row
                  /\ forall stored,
                       find_row (entity_id e) (articles w) = Some stored ->
                       stamped 0 row = stamped 0 (written_row timestamp_of e stored))
            /\ (forall k, k <> entity_id e ->
                find_row k (articles w1) = find_row k (articles w))) as Hserved.
  { intros w0 Ha Hu Hc Hk. rewrite Ha, Hk.
    destruct (find_row (entity_id e) (articles w)) as [stored|] eqn:Hf.
    - pose proof (find_row_id _ _ _ Hf) as Hid.
      destruct (bool_decide (written_row timestamp_of e stored = stored)) eqn:Hb;
        intros [= <- <-]; world.
      + apply bool_decide_eq_true in Hb.
        split; [left; reflexivity|]. split; [exact Hu|]. split; [exact Hc|]. split.
        * exists stored. rewrite Ha. split; [exact Hf|]. split.
          -- rewrite <- Hb. apply written_row_persisted, Hid.
          -- intros stored' [= <-]. rewrite Hb. reflexivity.
        * intros k _. rewrite Ha. reflexivity.
      + split; [right; reflexivity|]. split; [exact Hu|]. split; [exact Hc|]. split.
        * exists (stamped (clock w) (written_row timestamp_of e stored)).
          rewrite find_row_replace. cbn [stamped written_row id].
          rewrite bool_decide_eq_true_2 by (symmetry; exact Hid). rewrite Hf.
          split; [reflexivity|]. split.
          -- apply (written_row_persisted e stored Hid).
          -- intros stored' [= <-]. reflexivity.
        * intros k Hne. rewrite find_row_replace. cbn [stamped written_row id].
          rewrite bool_decide_eq_false_2 by congruence. reflexivity.
    - destruct (new_row timestamp_of e (clock w)) as [row|] eqn:Hn; [|discriminate].
      intros [= <- <-]; world. apply new_row_persisted in Hn as [Hid Hp].
      split; [right; reflexivity|]. split; [exact Hu|]. split; [exact Hc|]. split.
      + exists row. split; [apply find_row_app_new; assumption|].
        split; [exact Hp|]. intros stored' Hs. discriminate Hs.
      + intros k Hne. apply find_row_app_other. congruence. }
  destruct (hd Served (schedule w)); [|discriminate|]; apply Hserved; reflexivity.
Qed.

Lemma assign_fixed (e : Entity) (dto : UpdateArticleDto) :
  entity_id (foldl assign_entry e dto) = entity_id e
  /\ entity_authorId (foldl assign_entry e dto) = entity_authorId e
  /\ entity_createdAt (foldl assign_entry e dto) = entity_createdAt e
  /\ entity_author (foldl assign_entry e dto) = entity_author e.
Proof.
  revert e. induction dto as [|u dto IH]; intros e.
  - repeat split; reflexivity.
  - cbn [foldl]. destruct (IH (assign_entry e u)) as (H1 & H2 & H3 & H4).
    rewrite H1, H2, H3, H4. destruct u; repeat split; reflexivity.
Qed.

Lemma Object_assign_fixed (a : Article) (dto : UpdateArticleDto) :
  entity_id (Object_assign a dto) = id (columns a)
  /\ entity_authorId (Object_assign a dto) = authorId (columns a)
  /\ entity_createdAt (Object_assign a dto) = createdAt (columns a)
  /\ entity_author (Object_assign a dto) = author a.
Proof. apply (assign_fixed (of_article a) dto). Qed.

(** What a successful [update] did. *)
Lemma update_ok_full (w w' : World) (key userId : string) (dto : UpdateArticleDto)
    (updated : Entity) :
  update timestamp_of key dto userId w = (Ok updated, w') ->
  exists a w1,
    findOne key w = (Ok (AnArticle a), w1)
    /\ hasFields dto = true
    /\ authorId (columns a) = userId
    /\ (updated = Object_assign a dto
        \/ updated = restamped (clock w) (Object_assign a dto))
    /\ (exists row,
          find_row (id (columns a)) (articles w') = Some row
          /\ persisted timestamp_of updated row
          /\ forall stored,
               find_row (id (columns a)) (articles w) = Some stored ->
               stamped 0 row = stamped 0 (written_row timestamp_of updated stored))
    /\ (forall k, k <> id (columns a) ->
        find_row k (articles w') = find_row k (articles w))
    /\ users w' = users w
    /\ cache w' = delete (article_cache_key key) (cache w1).
Proof.
  intros H. destruct (hasFields dto) eqn:Hf.
  2:{ unfold update in H. rewrite Hf in H. discriminate H. }
  destruct (findOne key w) as [r w1] eqn:Hr.
  rewrite (update_after_findOne timestamp_of w w1 key dto userId r Hf Hr) in H.
  destruct r as [[a|p]|e]; try discriminate H.
  destruct (bool_decide (authorId (columns a) = userId)) eqn:Hb; [|discriminate H].
  apply bool_decide_eq_true in Hb.
  apply bind_ok_inv in H as (saved & w2 & Hsave & H).
  apply repo_save_ok_full in Hsave as (Hsaved & Hu2 & Hc2 & (row & Hrow & Hp & Hst) & Hothers).
  apply bind_ok_inv in H as (u & w3 & Hdel & H). injection H as <- <-.
  apply cache_del_ok_full in Hdel as ([Ha3 Hu3] & Hc3).
  destruct (findOne_ok_full key w w1 _ Hr) as ([Ha1 Hu1] & Hk1 & _).
  destruct (Object_assign_fixed a dto) as (Hid & _).
  rewrite Hid, Ha1 in *. rewrite Hk1 in *.
  exists a, w1. split; [reflexivity|]. split; [reflexivity|]. split; [exact Hb|].
  split; [exact Hsaved|]. split.
  { exists row. rewrite Ha3. split; [exact Hrow|].
    destruct Hsaved as [-> | ->]; split; assumption. }
  split; [intros k Hne; rewrite Ha3; apply Hothers, Hne|].
  split; congruence.
Qed.

(** What a successful [remove] did. *)
Lemma remove_ok_full (w w' : World) (key userId : string) (u : unit) :
  remove key userId w = (Ok u, w') ->
  exists a w1,
    findOne key w = (Ok (AnArticle a), w1)
    /\ authorId (columns a) = userId
    /\ articles w' = delete_row (id (columns a)) (articles w)
    /\ users w' = users w
    /\ cache w' = delete (article_cache_key key) (cache w1).
Proof.
  intros H. destruct (findOne key w) as [r w1] eqn:Hr.
  rewrite (remove_after_findOne w w1 key userId r Hr) in H.
  destruct r as [[a|p]|e]; try discriminate H.
  destruct (bool_decide (authorId (columns a) = userId)) eqn:Hb; [|discriminate H].
  apply bool_decide_eq_true in Hb.
  apply bind_ok_inv in H as (u1 & w2 & Hrem & H).
  apply repo_remove_ok_full in Hrem as (Ha2 & Hu2 & Hc2).
  apply cache_del_ok_full in H as ([Ha3 Hu3] & Hc3).
  destruct (findOne_ok_full key w w1 _ Hr) as ([Ha1 Hu1] & Hk1 & _).
  exists a, w1. repeat split; try assumption; congruence.
Qed.

(** The article a well-keyed cache or the store resolves an identifier to
    has that identifier. *)
Lemma findOne_ok_id (key : string) (w w1 : World) (a : Article) :
  well_keyed (cache w) ->
  findOne key w = (Ok (AnArticle a), w1) ->
  id (columns a) = key.
Proof.
  intros Hwk H. destruct (findOne_ok_full key w w1 _ H) as (_ & _ & [[[ttl Hc] _]|Hmiss]).
  - destruct (Hwk _ _ _ Hc) as [_ Hk]. symmetry. apply article_cache_key_inj, Hk.
  - destruct Hmiss as (_ & r & Hr & Hv & _). injection Hv as ->.
    apply find_row_id in Hr. exact Hr.
Qed.

End SuccessfulRuns.

(** ** How the operations compose *)

Section Composition.

Variable timestamp_of : string -> Z.

Lemma findAll_ok_full (query : QueryArticlesDto) (w w1 : World) (v : Payload) :
  findAll timestamp_of query w = (Ok v, w1) ->
  same_store w w1
  /\ ((exists ttl, cache w !! list_cache_key query = Some (v, ttl)) /\ cache w1 = cache w
      \/ cache w !! list_cache_key query = None
         /\ (exists r, v = APage r)
         /\ cache w1 = <[list_cache_key query := (v, TTL)]> (cache w)).
Proof.
  unfold_service. repeat step_eq; world; intros H; simplify_eq;
    (split; [split; reflexivity|]);
    first [ left; split; [eexists; reflexivity | reflexivity]
          | right; split; [reflexivity|]; split; [eexists; reflexivity | reflexivity] ].
Qed.

Lemma create_cache (w : World) (dto : CreateArticleDto) (userId : string) :
  cache (snd (create timestamp_of dto userId w)) = cache w.
Proof. run_any; reflexivity. Qed.

(** A successful read leaves its result in the cache: whatever the
    environment of the first read, the same read repeated in a healthy
    environment returns the same value with one cache read and no call to
    the store. *)
Theorem repeated_read_is_served_by_the_cache (w w1 : World) (v : Payload) :
  schedule w1 = [] ->
  (forall key,
     findOne key w = (Ok v, w1) ->
     findOne key w1 = (Ok v, logged [CacheGet (article_cache_key key)] w1))
  /\ (forall query,
        findAll timestamp_of query w = (Ok v, w1) ->
        findAll timestamp_of query w1
        = (Ok v, logged [CacheGet (list_cache_key query)] w1)).
Proof.
  intros Hs. split.
  - intros key H.
    assert (exists ttl, cache w1 !! article_cache_key key = Some (v, ttl)) as [ttl Hc].
    { destruct (findOne_ok_full key w w1 v H) as (_ & _ & [[[ttl Hc] ->]|Hmiss]).
      - eauto.
      - destruct Hmiss as (_ & r & _ & _ & ->). exists TTL. apply lookup_insert_eq. }
    eapply findOne_hit; eassumption.
  - intros query H.
    assert (exists ttl, cache w1 !! list_cache_key query = Some (v, ttl)) as [ttl Hc].
    { destruct (findAll_ok_full query w w1 v H) as (_ & [[[ttl Hc] ->]|Hmiss]).
      - eauto.
      - destruct Hmiss as (_ & _ & ->). exists TTL. apply lookup_insert_eq. }
    eapply findAll_hit; eassumption.
Qed.

(** Read your writes: after a successful [update] of an article, in any
    environment and from a cache whose entries are filed under their own
    keys, [findOne] in a healthy environment misses the cache and returns
    the row of the store, joined with its author.  That row has the
    identifier asked for and the caller as its author; it holds the value of
    every property that has one in what [update] returned; and where what
    [update] returned holds [undefined], the column is what the store had
    before. *)
Theorem update_then_get (w w' : World) (key userId : string) (dto : UpdateArticleDto)
    (updated : Entity) :
  well_keyed (cache w) ->
  update timestamp_of key dto userId w = (Ok updated, w') ->
  schedule w' = [] ->
  exists row,
    fst (findOne key w') = Ok (AnArticle (with_author (users w') row))
    /\ In (RepoFindOne key) (trace (snd (findOne key w')))
    /\ id row = key
    /\ authorId row = userId
    /\ (forall t, entity_title updated = Some t -> title row = t)
    /\ (forall d, entity_description updated = Some d -> description row = d)
    /\ (forall p, entity_publicationDate updated = Some p ->
        publicationDate row = instant_of timestamp_of p)
    /\ (forall stored,
        find_row key (articles w) = Some stored ->
        (entity_title updated = None -> title row = title stored)
        /\ (entity_description updated = None -> description row = description stored)
        /\ (entity_publicationDate updated = None ->
            publicationDate row = publicationDate stored)).
Proof.
  intros Hwk H Hs.
  destruct (update_ok_full timestamp_of w w' key userId dto updated H)
    as (a & w1 & Hf & _ & Hau & Hup & (row & Hrow & Hp & Hst) & _ & _ & Hc).
  pose proof (findOne_ok_id key w w1 a Hwk Hf) as Hid. rewrite Hid in *.
  assert (cache w' !! article_cache_key key = None) as Hmiss.
  { rewrite Hc. apply lookup_delete_eq. }
  destruct (Object_assign_fixed a dto) as (_ & Hau' & _).
  assert (entity_authorId updated = userId) as Hauthor.
  { destruct Hup as [-> | ->]; cbn [restamped entity_authorId]; congruence. }
  destruct Hp as (P1 & P2 & P3 & P4 & P5).
  exists row. rewrite (findOne_miss_found w' key _ Hs Hmiss Hrow). cbn [fst snd].
  split; [reflexivity|]. split.
  { world. apply in_or_app. right. right. left. reflexivity. }
  split; [apply find_row_id in Hrow; exact Hrow|].
  split; [congruence|].
  split; [exact P3|]. split; [exact P4|]. split; [exact P5|].
  intros stored Hstored. specialize (Hst stored Hstored).
  pose proof (f_equal title Hst) as Ht.
  pose proof (f_equal description Hst) as Hd.
  pose proof (f_equal publicationDate Hst) as Hpd.
  cbn [stamped written_row title description publicationDate] in Ht, Hd, Hpd.
  split; [|split]; intros Hnone; rewrite Hnone in *; assumption.
Qed.

(** After a successful [remove] of an article, in any environment and from a
    cache whose entries are filed under their own keys, [findOne] in a
    healthy environment fails with not-found. *)
Theorem remove_then_get (w w' : World) (key userId : string) :
  well_keyed (cache w) ->
  remove key userId w = (Ok tt, w') ->
  schedule w' = [] ->
  is_not_found (fst (findOne key w')).
Proof.
  intros Hwk H Hs.
  destruct (remove_ok_full w w' key userId tt H) as (a & w1 & Hf & _ & Hrows & _ & Hc).
  pose proof (findOne_ok_id key w w1 a Hwk Hf) as Hid.
  assert (find_row key (articles w') = None) as Hrow.
  { rewrite Hrows, Hid, find_row_delete, bool_decide_eq_true_2 by reflexivity.
    reflexivity. }
  assert (cache w' !! article_cache_key key = None) as Hmiss.
  { rewrite Hc. apply lookup_delete_eq. }
  rewrite (findOne_miss_absent w' key Hs Hmiss Hrow). eexists. reflexivity.
Qed.

(** A successful [update] or [remove] of an article, in any environment and
    from a cache whose entries are filed under their own keys, changes no
    other row and no user. *)
Theorem mutation_touches_one_row (w w' : World) (key userId : string)
    (dto : UpdateArticleDto) (updated : Entity) :
  well_keyed (cache w) ->
  update timestamp_of key dto userId w = (Ok updated, w')
  \/ remove key userId w = (Ok tt, w') ->
  users w' = users w
  /\ forall other, other <> key -> find_row other (articles w') = find_row other (articles w).
Proof.
  intros Hwk [H|H].
  - destruct (update_ok_full timestamp_of w w' key userId dto updated H)
      as (a & w1 & Hf & _ & _ & _ & _ & Hothers & Hus & _).
    pose proof (findOne_ok_id key w w1 a Hwk Hf) as Hid.
    split; [assumption|]. intros other Hne. apply Hothers. congruence.
  - destruct (remove_ok_full w w' key userId tt H) as (a & w1 & Hf & _ & Hrows & Hus & _).
    pose proof (findOne_ok_id key w w1 a Hwk Hf) as Hid.
    split; [assumption|]. intros other Hne.
    rewrite Hrows, Hid, find_row_delete, bool_decide_eq_false_2 by assumption.
    reflexivity.
Qed.

(** Pages go stale: after a successful [update] or [remove], or after any
    [create], a collection query whose page was cached before is still
    answered from the cache, with the page as it was cached and without a
    call to the store. *)
Theorem cached_pages_survive_mutations (w w' : World) (key userId : string)
    (dto : UpdateArticleDto) (updated : Entity) (fields : CreateArticleDto)
    (query : QueryArticlesDto) (cached : Payload) (ttl : Z) :
  update timestamp_of key dto userId w = (Ok updated, w')
  \/ remove key userId w = (Ok tt, w')
  \/ w' = snd (create timestamp_of fields userId w) ->
  schedule w' = [] ->
  cache w !! list_cache_key query = Some (cached, ttl) ->
  findAll timestamp_of query w' = (Ok cached, logged [CacheGet (list_cache_key query)] w').
Proof.
  intros H Hs Hc.
  assert (cache w' !! list_cache_key query = Some (cached, ttl)) as Hc'.
  { destruct H as [H|[H|H]].
    - apply update_ok_invalidated in H as [-> _].
      rewrite lookup_delete_ne by (intros E; symmetry in E;
                                   exact (key_namespaces_disjoint _ _ E)).
      exact Hc.
    - apply remove_ok_invalidated in H as [-> _].
      rewrite lookup_delete_ne by (intros E; symmetry in E;
                                   exact (key_namespaces_disjoint _ _ E)).
      exact Hc.
    - subst w'. rewrite create_cache. exact Hc. }
  eapply findAll_hit; eassumption.
Qed.

End Composition.

(** ** An invariant of the cache *)

Lemma well_keyed_insert_article (c : gmap string (Payload * Z)) (a : Article) :
  well_keyed c ->
  well_keyed (<[article_cache_key (id (columns a)) := (AnArticle a, TTL)]> c).
Proof.
  intros Hc k v ttl. rewrite lookup_insert. case_decide as Hk.
  - intros [= <- <-]. subst k. split; reflexivity.
  - apply Hc.
Qed.

Lemma well_keyed_insert_page (c : gmap string (Payload * Z)) (query : QueryArticlesDto)
    (r : PageResult) :
  well_keyed c -> well_keyed (<[list_cache_key query := (APage r, TTL)]> c).
Proof.
  intros Hc k v ttl. rewrite lookup_insert. case_decide as Hk.
  - intros [= <- <-]. subst k. split; [reflexivity|]. exists query. reflexivity.
  - apply Hc.
Qed.

Lemma well_keyed_delete (c : gmap string (Payload * Z)) (key : string) :
  well_keyed c -> well_keyed (delete key c).
Proof.
  intros Hc k v ttl. rewrite lookup_delete. case_decide as Hk; [discriminate|]. apply Hc.
Qed.

Lemma findOne_cache (key : string) (w : World) :
  cache (snd (findOne key w)) = cache w
  \/ exists r, find_row key (articles w) = Some r
               /\ cache (snd (findOne key w))
                  = <[article_cache_key key := (AnArticle (with_author (users w) r), TTL)]>
                      (cache w).
Proof.
  destruct (findOne key w) as [[v|e] w1] eqn:H.
  - destruct (findOne_ok_full key w w1 v H) as (_ & _ & [[_ Hc]|(_ & r & Hr & -> & Hc)]).
    + left. exact Hc.
    + right. exists r. split; assumption.
  - left. revert H. unfold_service. repeat step_eq; world; intros H; simplify_eq;
      reflexivity.
Qed.

Lemma findOne_well_keyed (key : string) (w : World) :
  well_keyed (cache w) -> well_keyed (cache (snd (findOne key w))).
Proof.
  intros Hwk. destruct (findOne_cache key w) as [->|(r & Hr & ->)]; [assumption|].
  apply find_row_id in Hr. subst key.
  apply (well_keyed_insert_article _ (with_author (users w) r)), Hwk.
Qed.

Lemma invalidation_cache (key : string) (w1 : World) (m : Async unit) :
  (forall w, cache (snd (m w)) = cache w) ->
  cache (snd ((m ;;; invalidateArticleCache key) w1)) = cache w1
  \/ cache (snd ((m ;;; invalidateArticleCache key) w1))
     = delete (article_cache_key key) (cache w1).
Proof.
  intros Hm. unfold bind. specialize (Hm w1). destruct (m w1) as [[u|e] w2].
  - cbn [snd] in Hm. unfold invalidateArticleCache, cache_del, bind, call, throw.
    destruct (hd Served (schedule w2)); world; rewrite Hm; auto.
  - left. exact Hm.
Qed.

Lemma repo_save_cache (timestamp_of : string -> Z) (e : Entity) (w : World) :
  cache (snd (repo_save timestamp_of e w)) = cache w.
Proof.
  unfold repo_save, bind, call, throw.
  destruct (hd Served (schedule w)); world; try reflexivity;
    (destruct (find_row (entity_id e) (articles w));
     [destruct (bool_decide _) | destruct (new_row _ _ _)]); reflexivity.
Qed.

Lemma repo_remove_cache (a : Article) (w : World) :
  cache (snd (repo_remove a w)) = cache w.
Proof. unfold repo_remove, bind, call, throw. destruct (hd Served (schedule w)); reflexivity. Qed.

Section CacheInvariant.

Variable timestamp_of : string -> Z.

Lemma findAll_well_keyed (query : QueryArticlesDto) (w : World) :
  well_keyed (cache w) -> well_keyed (cache (snd (findAll timestamp_of query w))).
Proof.
  intros Hwk. destruct (findAll timestamp_of query w) as [[v|e] w1] eqn:H; cbn [snd].
  - destruct (findAll_ok_full timestamp_of query w w1 v H)
      as (_ & [[_ ->]|(_ & [r ->] & ->)]); [assumption|].
    apply well_keyed_insert_page, Hwk.
  - assert (cache w1 = cache w) as ->; [|assumption].
    revert H. unfold_service. repeat step_eq; world; intros H; simplify_eq; reflexivity.
Qed.

Lemma update_well_keyed (key userId : string) (dto : UpdateArticleDto) (w : World) :
  well_keyed (cache w) ->
  well_keyed (cache (snd (update timestamp_of key dto userId w))).
Proof.
  intros Hwk. destruct (hasFields dto) eqn:Hf.
  2:{ unfold update. rewrite Hf. assumption. }
  pose proof (findOne_well_keyed key w Hwk) as Hwk1.
  destruct (findOne key w) as [r w1] eqn:Hr. cbn [snd] in Hwk1.
  rewrite (update_after_findOne timestamp_of w w1 key dto userId r Hf Hr).
  destruct r as [[a|p]|e]; try assumption.
  destruct (bool_decide (authorId (columns a) = userId)); [|assumption].
  unfold bind. pose proof (repo_save_cache timestamp_of (Object_assign a dto) w1) as Hs.
  destruct (repo_save timestamp_of (Object_assign a dto) w1) as [[saved|e] w2];
    cbn [snd] in Hs; [|world; rewrite Hs; assumption].
  unfold invalidateArticleCache, cache_del, bind, call, throw, ret.
  destruct (hd Served (schedule w2)); world; rewrite Hs;
    first [assumption | apply well_keyed_delete; assumption].
Qed.

Lemma remove_well_keyed (key userId : string) (w : World) :
  well_keyed (cache w) -> well_keyed (cache (snd (remove key userId w))).
Proof.
  intros Hwk. pose proof (findOne_well_keyed key w Hwk) as Hwk1.
  destruct (findOne key w) as [r w1] eqn:Hr. cbn [snd] in Hwk1.
  rewrite (remove_after_findOne w w1 key userId r Hr).
  destruct r as [[a|p]|e]; try assumption.
  destruct (bool_decide (authorId (columns a) = userId)); [|assumption].
  destruct (invalidation_cache key w1 (repo_remove a) (repo_remove_cache a)) as [->| ->];
    first [assumption | apply well_keyed_delete; assumption].
Qed.

(** The casts of the reads are safe: from a cache whose entries are filed
    under their own keys, and whatever the environment, what [findOne]
    returns is an article, with the identifier asked for, and what [findAll]
    returns is a page. *)
Theorem reads_return_what_they_promise (w w1 : World) (v : Payload) :
  well_keyed (cache w) ->
  (forall key,
     findOne key w = (Ok v, w1) -> exists a, v = AnArticle a /\ id (columns a) = key)
  /\ (forall query,
        findAll timestamp_of query w = (Ok v, w1) -> exists r, v = APage r).
Proof.
  intros Hwk. split.
  - intros key H. destruct v as [a|r].
    + exists a. split; [reflexivity|]. eapply findOne_ok_id; eassumption.
    + exfalso.
      destruct (findOne_ok_full key w w1 _ H) as (_ & _ & [[[ttl Hc] _]|Hmiss]).
      * destruct (Hwk _ _ _ Hc) as [_ [query Hq]].
        symmetry in Hq. exact (key_namespaces_disjoint _ _ Hq).
      * destruct Hmiss as (_ & r' & _ & Hv & _). discriminate Hv.
  - intros query H. destruct v as [a|r]; [exfalso | exists r; reflexivity].
    destruct (findAll_ok_full timestamp_of query w w1 _ H) as (_ & [[[ttl Hc] _]|Hmiss]).
    + destruct (Hwk _ _ _ Hc) as [_ Hq]. exact (key_namespaces_disjoint _ _ Hq).
    + destruct Hmiss as (_ & [r Hv] & _). discriminate Hv.
Qed.

(** The cache stays well keyed: if every entry is filed under the key of
    what it holds and has the five-minute time-to-live, then so is every
    entry after any operation of the service, whatever the environment
    answers and however the operation ends. *)
Theorem cache_stays_well_keyed (w : World) :
  well_keyed (cache w) ->
  (forall key, well_keyed (cache (snd (findOne key w))))
  /\ (forall query, well_keyed (cache (snd (findAll timestamp_of query w))))
  /\ (forall dto userId, well_keyed (cache (snd (create timestamp_of dto userId w))))
  /\ (forall key dto userId,
        well_keyed (cache (snd (update timestamp_of key dto userId w))))
  /\ (forall key userId, well_keyed (cache (snd (remove key userId w)))).
Proof.
  intros Hwk. split; [|split; [|split; [|split]]].
  - intros key. apply findOne_well_keyed, Hwk.
  - intros query. apply findAll_well_keyed, Hwk.
  - intros dto userId. rewrite create_cache. exact Hwk.
  - intros key dto userId. apply update_well_keyed, Hwk.
  - intros key userId. apply remove_well_keyed, Hwk.
Qed.

End CacheInvariant.

Lemma well_keyed_empty : well_keyed ∅.
Proof. intros k v ttl H. rewrite lookup_empty in H. discriminate H. Qed.

(** ** Updates *)

Section Updates.

Variable timestamp_of : string -> Z.

Lemma assign_fields (e : Entity) (dto : UpdateArticleDto) :
  entity_title (foldl assign_entry e dto)
  = match assigned_title dto with Some v => v | None => entity_title e end
  /\ entity_description (foldl assign_entry e dto)
     = match assigned_description dto with Some v => v | None => entity_description e end
  /\ entity_publicationDate (foldl assign_entry e dto)
     = match assigned_publicationDate dto with
       | Some v => DateText <$> v
       | None => entity_publicationDate e
       end.
Proof.
  unfold assigned_title, assigned_description, assigned_publicationDate.
  induction dto as [|u l IH] using rev_ind.
  - repeat split; reflexivity.
  - rewrite !foldl_app. cbn [foldl]. destruct IH as (H1 & H2 & H3).
    destruct u; cbn [assign_entry entity_title entity_description entity_publicationDate];
      repeat split; try assumption; reflexivity.
Qed.

Lemma Object_assign_fields (a : Article) (dto : UpdateArticleDto) :
  entity_title (Object_assign a dto)
  = match assigned_title dto with Some v => v | None => Some (title (columns a)) end
  /\ entity_description (Object_assign a dto)
     = match assigned_description dto with
       | Some v => v
       | None => Some (description (columns a))
       end
  /\ entity_publicationDate (Object_assign a dto)
     = match assigned_publicationDate dto with
       | Some v => DateText <$> v
       | None => Some (DateObject (publicationDate (columns a)))
       end.
Proof. apply (assign_fields (of_article a) dto). Qed.

(** A successful [update], in any environment, returns the article
    [findOne] resolved with its identifier, author and creation time as they
    were and the caller as its author.  The title, the description and the
    publication date are what the update holds for them, a value or
    [undefined], and are as they were where the update has no such
    property; a publication date comes back as the text that was sent. *)
Theorem update_changes_supplied_fields_only (w w' : World) (key userId : string)
    (dto : UpdateArticleDto) (updated : Entity) :
  update timestamp_of key dto userId w = (Ok updated, w') ->
  exists a,
    fst (findOne key w) = Ok (AnArticle a)
    /\ entity_id updated = id (columns a)
    /\ entity_authorId updated = userId
    /\ authorId (columns a) = userId
    /\ entity_createdAt updated = createdAt (columns a)
    /\ entity_author updated = author a
    /\ entity_title updated
       = match assigned_title dto with Some v => v | None => Some (title (columns a)) end
    /\ entity_description updated
       = match assigned_description dto with
         | Some v => v
         | None => Some (description (columns a))
         end
    /\ entity_publicationDate updated
       = match assigned_publicationDate dto with
         | Some v => DateText <$> v
         | None => Some (DateObject (publicationDate (columns a)))
         end.
Proof.
  intros H.
  destruct (update_ok_full timestamp_of w w' key userId dto updated H)
    as (a & w1 & Hf & _ & Hau & Hup & _).
  destruct (Object_assign_fixed a dto) as (F1 & F2 & F3 & F4).
  destruct (Object_assign_fields a dto) as (G1 & G2 & G3).
  exists a. rewrite Hf. cbn [fst].
  destruct Hup as [-> | ->];
    cbn [restamped entity_id entity_authorId entity_createdAt entity_author
         entity_title entity_description entity_publicationDate];
    repeat split; congruence.
Qed.

Lemma repo_save_scheduled (e : Entity) (w : World) (o : Outcome) (rest : list Outcome)
    (stored : ArticleRow) :
  schedule w = o :: rest ->
  o <> Rejected ->
  find_row (entity_id e) (articles w) = Some stored ->
  exists r w1,
    repo_save timestamp_of e w = (Ok r, w1) /\ schedule w1 = rest.
Proof.
  intros Hs Ho Hf. unfold repo_save, bind.
  rewrite (call_scheduled _ w _ _ Hs).
  destruct o; [| exfalso; apply Ho; reflexivity |]; world; rewrite Hf;
    destruct (bool_decide _); eexists _, _; split; reflexivity.
Qed.

(** A failed invalidation does not undo the write: when the article is
    served from the cache and has its row in the store, the owner's update
    is saved and the deletion of the cache entry is rejected, [update] fails
    with the cache's error, status 500, and the row of the store holds
    every value the update set. *)
Theorem failed_invalidation_keeps_the_write (w : World) (key userId : string)
    (dto : UpdateArticleDto) (a : Article) (ttl : Z) (stored : ArticleRow) :
  cache w !! article_cache_key key = Some (AnArticle a, ttl) ->
  authorId (columns a) = userId ->
  ~ all_unset dto ->
  find_row (id (columns a)) (articles w) = Some stored ->
  schedule w = [Served; Served; Rejected] ->
  (exists e,
     fst (update timestamp_of key dto userId w) = Throw e /\ http_status e = 500)
  /\ exists row,
      find_row (id (columns a)) (articles (snd (update timestamp_of key dto userId w)))
      = Some row
      /\ (forall v, assigned_title dto = Some (Some v) -> title row = v)
      /\ (forall v, assigned_description dto = Some (Some v) -> description row = v)
      /\ (forall v, assigned_publicationDate dto = Some (Some v) ->
          publicationDate row = timestamp_of v).
Proof.
  intros Hc Hau Hf Hstored Hs. apply hasFields_true in Hf.
  assert (findOne key w
          = (Ok (AnArticle a),
             with_schedule [Served; Rejected]
               (logged [CacheGet (article_cache_key key)] w))) as Hfind.
  { unfold findOne, cache_get, bind. rewrite (call_scheduled _ w _ _ Hs). world.
    rewrite Hc. reflexivity. }
  rewrite (update_after_findOne timestamp_of w _ key dto userId _ Hf Hfind).
  rewrite bool_decide_eq_true_2 by assumption.
  destruct (Object_assign_fixed a dto) as (F1 & _).
  destruct (repo_save_scheduled (Object_assign a dto)
              (with_schedule [Served; Rejected]
                 (logged [CacheGet (article_cache_key key)] w))
              Served [Rejected] stored eq_refl ltac:(discriminate)
              ltac:(world; rewrite F1; exact Hstored))
    as (r & w2 & Hsave & Hs2).
  unfold bind. rewrite Hsave.
  apply repo_save_ok_full in Hsave as (_ & _ & _ & (row & Hrow & Hp & _) & _).
  unfold invalidateArticleCache, cache_del, bind.
  rewrite (call_scheduled _ w2 _ _ Hs2). cbn [throw fst snd]. world.
  split; [eexists; split; reflexivity|].
  exists row. rewrite F1 in Hrow. split; [exact Hrow|].
  destruct Hp as (_ & _ & P3 & P4 & P5).
  destruct (Object_assign_fields a dto) as (G1 & G2 & G3).
  split; [|split]; intros v Hv.
  - apply P3. rewrite G1, Hv. reflexivity.
  - apply P4. rewrite G2, Hv. reflexivity.
  - rewrite (P5 (DateText v)); [reflexivity|]. rewrite G3, Hv. reflexivity.
Qed.

End Updates.

(** ** The order and the pages of a collection query *)

Lemma StronglySorted_skipn {A} (R : A -> A -> Prop) (n : nat) (l : list A) :
  StronglySorted R l -> StronglySorted R (skipn n l).
Proof.
  revert l. induction n as [|n IH]; intros l Hs; [exact Hs|].
  destruct l as [|x l]; [constructor|]. cbn [skipn].
  apply StronglySorted_inv in Hs as [Hl _]. apply IH, Hl.
Qed.

Lemma StronglySorted_firstn {A} (R : A -> A -> Prop) (n : nat) (l : list A) :
  StronglySorted R l -> StronglySorted R (firstn n l).
Proof.
  revert l. induction n as [|n IH]; intros l Hs; [constructor|].
  destruct l as [|x l]; [constructor|]. cbn [firstn].
  apply StronglySorted_inv in Hs as [Hl Hx]. constructor; [apply IH, Hl|].
  apply Forall_take, Hx.
Qed.

Lemma StronglySorted_map {A B} (R : A -> A -> Prop) (S : B -> B -> Prop) (f : A -> B)
    (l : list A) :
  (forall x y, R x y -> S (f x) (f y)) ->
  StronglySorted R l -> StronglySorted S (map f l).
Proof.
  intros HRS. induction 1 as [|x l Hl IH Hx]; cbn [map]; constructor; [exact IH|].
  apply Forall_forall. intros y Hy. apply list_elem_of_In, in_map_iff in Hy as (z & <- & Hz).
  apply HRS. rewrite Forall_forall in Hx. apply Hx, list_elem_of_In, Hz.
Qed.

Lemma lookup_map {A B} (f : A -> B) (l : list A) (i : nat) :
  map f l !! i = f <$> l !! i.
Proof.
  revert i. induction l as [|x l IH]; intros [|i]; cbn; try reflexivity. apply IH.
Qed.

(** Two values of a list in which a function takes no value twice are equal
    when the function agrees on them. *)
Lemma NoDup_map_eq {A B} (f : A -> B) (l : list A) (x y : A) :
  NoDup (map f l) -> In x l -> In y l -> f x = f y -> x = y.
Proof.
  induction l as [|z l IH]; intros Hnd Hx Hy Hf; [destruct Hx|].
  cbn [map] in Hnd. apply NoDup_cons in Hnd as [Hz Hnd].
  destruct Hx as [->|Hx], Hy as [->|Hy].
  - reflexivity.
  - exfalso. apply Hz. rewrite Hf. apply list_elem_of_In, in_map, Hy.
  - exfalso. apply Hz. rewrite <- Hf. apply list_elem_of_In, in_map, Hx.
  - apply IH; assumption.
Qed.

Lemma sorted_permutation_unique {A} (R : A -> A -> Prop) (l1 l2 : list A) :
  (forall x y, In x l1 -> In y l1 -> R x y -> R y x -> x = y) ->
  Permutation l1 l2 ->
  StronglySorted R l1 ->
  StronglySorted R l2 ->
  l1 = l2.
Proof.
  revert l2. induction l1 as [|x l1 IH]; intros l2 Hanti Hperm Hs1 Hs2.
  - apply Permutation_nil in Hperm. congruence.
  - destruct l2 as [|y l2]; [symmetry in Hperm; apply Permutation_nil in Hperm; discriminate|].
    apply StronglySorted_inv in Hs1 as [Hs1 Hx]. apply StronglySorted_inv in Hs2 as [Hs2 Hy].
    rewrite Forall_forall in Hx, Hy.
    assert (In y (x :: l1)) as Hyin
      by (apply (Permutation_in _ (Permutation_sym Hperm)); left; reflexivity).
    assert (In x (y :: l2)) as Hxin
      by (apply (Permutation_in _ Hperm); left; reflexivity).
    assert (x = y) as <-.
    { destruct Hyin as [Hyx|Hyin]; [exact Hyx|].
      destruct Hxin as [Hxy|Hxin]; [symmetry; exact Hxy|].
      apply Hanti; [left; reflexivity | right; exact Hyin | |].
      - apply (Hx y), list_elem_of_In, Hyin.
      - apply (Hy x), list_elem_of_In, Hxin. }
    f_equal. apply IH; try assumption.
    + intros a b Ha Hb. apply Hanti; right; assumption.
    + apply Permutation_cons_inv in Hperm. exact Hperm.
Qed.

(** Rows of pairwise distinct dates have one arrangement by date. *)
Lemma sorted_arrangement_unique (l1 l2 : list ArticleRow) :
  (forall x y, In x l1 -> In y l1 -> publicationDate x = publicationDate y -> x = y) ->
  Permutation l1 l2 ->
  StronglySorted newer_first l1 ->
  StronglySorted newer_first l2 ->
  l1 = l2.
Proof.
  intros Hinj. apply sorted_permutation_unique.
  intros x y Hx Hy Hxy Hyx. apply Hinj; [exact Hx | exact Hy|].
  unfold newer_first in *. lia.
Qed.

Section Pages.

Variable timestamp_of : string -> Z.

(** The page of a collection query is in order and holds matching rows
    only: in a healthy environment and on a cache miss, the articles
    [findAll] returns come most recent first, and each of them is a row of
    the store that the conditions of the query select, joined with its
    author. *)
Theorem page_is_ordered_and_matching (w : World) (query : QueryArticlesDto) :
  schedule w = [] ->
  cache w !! list_cache_key query = None ->
  exists result : PageResult,
    fst (findAll timestamp_of query w) = Ok (APage result)
    /\ StronglySorted (fun x y => newer_first (columns x) (columns y)) (data result)
    /\ forall a, In a (data result) ->
         In (columns a) (articles w)
         /\ selected timestamp_of (where_conditions query) (columns a) = true
         /\ author a = find_user (authorId (columns a)) (users w).
Proof.
  intros Hs Hc. rewrite (findAll_miss timestamp_of w query Hs Hc). cbn [fst].
  eexists. split; [reflexivity|]. cbn [data]. split.
  - apply (StronglySorted_map newer_first); [auto|].
    apply StronglySorted_firstn, StronglySorted_skipn, order_by_date_desc_sorted.
  - intros a Ha. apply in_map_iff in Ha as (r & <- & Hr). cbn [with_author columns author].
    apply list_elem_of_In, subseteq_take, subseteq_drop in Hr.
    rewrite order_by_date_desc_perm in Hr.
    apply list_elem_of_In, filter_In in Hr as [Hin Hsel].
    repeat split; assumption.
Qed.

(** Pages cut the ranking into consecutive pieces: in a healthy environment
    and on a cache miss, for a query that asks for the page [p >= 1] with
    the limit [l >= 1], and when no two matching rows have the same
    publication date, the item at position [j < l] of the page is the row
    at position [(p - 1) * l + j] of the matching rows arranged most recent
    first, whichever way that arrangement was made; a page that starts at
    or after the total is empty. *)
Theorem pages_cut_the_ranking (w : World) (query : QueryArticlesDto) (p l : Z)
    (ranking : list ArticleRow) :
  schedule w = [] ->
  cache w !! list_cache_key query = None ->
  page_asked query p ->
  limit_asked query l ->
  (1 <= p)%Z ->
  (1 <= l)%Z ->
  let matching :=
    List.filter (selected timestamp_of (where_conditions query)) (articles w) in
  NoDup (map publicationDate matching) ->
  Permutation ranking matching ->
  StronglySorted newer_first ranking ->
  exists result : PageResult,
    fst (findAll timestamp_of query w) = Ok (APage result)
    /\ (forall j : nat,
          (Z.of_nat j < l)%Z ->
          data result !! j
          = with_author (users w) <$> ranking !! (Z.to_nat ((p - 1) * l) + j)%nat)
    /\ (forall j : nat, (l <= Z.of_nat j)%Z -> data result !! j = None)
    /\ ((total result <= (p - 1) * l)%Z -> data result = []).
Proof.
  intros Hs Hc Hp Hl Hp1 Hl1 matching Hdistinct Hperm Hsorted.
  apply page_asked_of in Hp. apply limit_asked_of in Hl.
  rewrite (findAll_miss timestamp_of w query Hs Hc). cbn [fst].
  eexists. split; [reflexivity|]. cbn [data total]. rewrite Hp, Hl. fold matching.
  assert (order_by_date_desc (tie_break w) matching = ranking) as ->.
  { apply sorted_arrangement_unique.
    - intros x y Hx Hy. apply (NoDup_map_eq publicationDate matching); [exact Hdistinct| |];
        rewrite <- (order_by_date_desc_perm (tie_break w) matching); assumption.
    - rewrite Hperm. apply order_by_date_desc_perm.
    - apply order_by_date_desc_sorted.
    - exact Hsorted. }
  split; [|split].
  - intros j Hj. rewrite lookup_map, lookup_take_lt, lookup_drop by lia. reflexivity.
  - intros j Hj. rewrite lookup_map, lookup_take_ge by lia. reflexivity.
  - intros Ht. rewrite skipn_all2; [destruct (Z.to_nat l); reflexivity|].
    rewrite (Permutation_length Hperm). nia.
Qed.

End Pages.

(** ** The order of ties is the store's choice *)

Lemma rank_app (r : ArticleRow) (front back : list ArticleRow) :
  ~ In r front -> rank r (front ++ back) = (length front + rank r back)%nat.
Proof.
  induction front as [|y front IH]; intros Hr; [reflexivity|]. cbn [app rank length].
  destruct (decide (y = r)) as [->|Hne]; [exfalso; apply Hr; left; reflexivity|].
  rewrite IH by (intros H; apply Hr; right; exact H). reflexivity.
Qed.

Lemma rank_inj (r x : ArticleRow) (t : list ArticleRow) :
  In r t -> rank r t = rank x t -> r = x.
Proof.
  induction t as [|y t IH]; intros Hr Heq; [destruct Hr|]. cbn [rank] in Heq.
  destruct (decide (y = r)) as [Hyr|Hyr], (decide (y = x)) as [Hyx|Hyx];
    try discriminate Heq.
  - congruence.
  - destruct Hr as [Hr|Hr]; [contradiction|]. injection Heq as Heq. apply IH; assumption.
Qed.

Lemma insert_desc_ranked (target : list ArticleRow) (r : ArticleRow) (l : list ArticleRow) :
  In r target -> (forall x, In x l -> In x target /\ x <> r) ->
  StronglySorted (ranked_before target) l ->
  StronglySorted (ranked_before target) (insert_desc (arrangement target) r l).
Proof.
  intros Hr. induction l as [|x l IH]; intros Hl Hs; cbn [insert_desc].
  - repeat constructor.
  - apply StronglySorted_inv in Hs as [Hs Hx].
    destruct (Hl x (or_introl eq_refl)) as [Hxt Hxr].
    destruct ((publicationDate x <? publicationDate r)%Z
              || ((publicationDate x =? publicationDate r)%Z && arrangement target r x))
      eqn:Hb.
    + assert (ranked_before target r x) as Hrx.
      { unfold ranked_before. apply orb_true_iff in Hb as [Hb|Hb].
        - apply Z.ltb_lt in Hb. left. lia.
        - apply andb_true_iff in Hb as [Hd Ha]. apply Z.eqb_eq in Hd.
          apply bool_decide_eq_true in Ha. right. split; [lia | exact Ha]. }
      constructor; [constructor; assumption|].
      constructor; [exact Hrx|].
      eapply Forall_impl; [exact Hx|]. intros y Hy. unfold ranked_before in *. lia.
    + assert (ranked_before target x r) as Hxr'.
      { unfold ranked_before. apply orb_false_iff in Hb as [Hlt Hb].
        apply Z.ltb_ge in Hlt.
        destruct (Z.eq_dec (publicationDate x) (publicationDate r)) as [Heq|Hne];
          [|left; lia].
        right. split; [symmetry; exact Heq|].
        apply andb_false_iff in Hb as [Hb|Hb]; [apply Z.eqb_neq in Hb; contradiction|].
        apply bool_decide_eq_false in Hb.
        assert (rank x target <> rank r target)
          by (intros E; apply Hxr; apply (rank_inj x r target Hxt E)).
        lia. }
      constructor.
      * apply IH; [|exact Hs]. intros y Hy. apply Hl. right. exact Hy.
      * rewrite insert_desc_perm. constructor; [exact Hxr' | exact Hx].
Qed.

Lemma target_ranked (front back : list ArticleRow) :
  NoDup (front ++ back) ->
  StronglySorted newer_first back ->
  StronglySorted (ranked_before (front ++ back)) back.
Proof.
  revert front. induction back as [|y back IH]; intros front Hnd Hs; [constructor|].
  apply StronglySorted_inv in Hs as [Hs Hy].
  pose proof Hnd as Hnd'. apply NoDup_app in Hnd' as (_ & Hdisj & Hback).
  apply NoDup_cons in Hback as [Hyb Hback].
  assert (~ In y front) as Hyf.
  { intros H. apply list_elem_of_In in H. apply (Hdisj y H). left. }
  constructor.
  - replace (front ++ y :: back)%list with ((front ++ [y]) ++ back)%list
      by (rewrite <- app_assoc; reflexivity).
    apply IH; [rewrite <- app_assoc; exact Hnd | exact Hs].
  - rewrite Forall_forall in Hy |- *. intros z Hz. specialize (Hy z Hz).
    unfold ranked_before, newer_first in *.
    destruct (Z.eq_dec (publicationDate y) (publicationDate z)) as [Heq|Hne]; [|left; lia].
    right. split; [symmetry; exact Heq|].
    assert (~ In z front) as Hzf.
    { intros H. apply list_elem_of_In in H. apply (Hdisj z H). right. exact Hz. }
    rewrite !rank_app by assumption. cbn [rank].
    rewrite decide_True by reflexivity.
    rewrite decide_False by (intros ->; contradiction). lia.
Qed.

(** Whatever way the matching rows are arranged by date, most recent
    first, there is an order of ties with which the store hands them out in
    that arrangement. *)
Lemma every_arrangement_is_an_order_of_ties (l target : list ArticleRow) :
  NoDup l ->
  Permutation target l ->
  StronglySorted newer_first target ->
  order_by_date_desc (arrangement target) l = target.
Proof.
  intros Hnd Hperm Hsorted.
  assert (NoDup target) as Hndt by (rewrite Hperm; exact Hnd).
  apply (sorted_permutation_unique (ranked_before target)).
  - intros x y _ _ Hxy Hyx. exfalso. unfold ranked_before in *. lia.
  - etransitivity; [apply order_by_date_desc_perm|]. symmetry. exact Hperm.
  - assert (forall x, In x l -> In x target) as Hin
      by (intros x Hx; apply (Permutation_in _ (Permutation_sym Hperm)), Hx).
    clear Hperm Hsorted Hndt. induction l as [|r l IH]; [constructor|].
    apply NoDup_cons in Hnd as [Hr Hnd].
    unfold order_by_date_desc in *. cbn [foldr]. apply insert_desc_ranked.
    + apply Hin. left. reflexivity.
    + intros x Hx. rewrite (order_by_date_desc_perm (arrangement target) l) in Hx.
      split; [apply Hin; right; exact Hx|]. intros ->. apply Hr, list_elem_of_In, Hx.
    + apply IH; [exact Hnd|]. intros x Hx. apply Hin. right. exact Hx.
  - apply (target_ranked [] target); assumption.
Qed.

(** ** Keys do not collide *)

Lemma app_cons (x : ascii) (a b : string) : String x a +:+ b = String x (a +:+ b).
Proof. reflexivity. Qed.

Lemma app_empty (b : string) : "" +:+ b = b.
Proof. reflexivity. Qed.

Lemma string_app_assoc (a b c : string) : (a +:+ b) +:+ c = a +:+ (b +:+ c).
Proof.
  induction a as [|x a IH]; [reflexivity|]. rewrite !app_cons, IH. reflexivity.
Qed.

Lemma unescape_escape (c : ascii) (rest : string) :
  unescape_head (json_escape c +:+ rest) = Some (c, rest).
Proof. destruct c as [[] [] [] [] [] [] [] []]; reflexivity. Qed.

Lemma escaped_text_inj (s1 s2 t1 t2 : string) :
  json_escape_string s1 +:+ String dquote t1 = json_escape_string s2 +:+ String dquote t2 ->
  s1 = s2 /\ t1 = t2.
Proof.
  revert s2. induction s1 as [|c1 s1 IH]; intros [|c2 s2] H; cbn [json_escape_string] in H.
  - rewrite !app_empty in H. injection H as ->. split; reflexivity.
  - rewrite string_app_assoc, app_empty in H. apply (f_equal unescape_head) in H.
    rewrite unescape_escape in H. discriminate H.
  - rewrite string_app_assoc, app_empty in H. apply (f_equal unescape_head) in H.
    rewrite unescape_escape in H. discriminate H.
  - rewrite !string_app_assoc in H. apply (f_equal unescape_head) in H.
    rewrite !unescape_escape in H. injection H as -> H.
    destruct (IH s2 H) as [-> ->]. split; reflexivity.
Qed.

Lemma json_quote_inj (s1 s2 t1 t2 : string) :
  json_quote s1 +:+ t1 = json_quote s2 +:+ t2 -> s1 = s2 /\ t1 = t2.
Proof.
  unfold json_quote. rewrite !app_cons, !string_app_assoc, !app_cons, !app_empty.
  intros [= H]. apply escaped_text_inj, H.
Qed.

Lemma pretty_N_char_number (x : N) : number_char (pretty_N_char x) = true.
Proof. unfold pretty_N_char. repeat case_match; reflexivity. Qed.

Lemma pretty_N_go_number (x : N) (s : string) :
  number_text s = true -> number_text (pretty_N_go x s) = true.
Proof.
  revert s. induction (N.lt_wf_0 x) as [x _ IH]; intros s Hs.
  destruct (decide (x = 0)%N) as [->|Hx]; [rewrite pretty_N_go_0; exact Hs|].
  rewrite pretty_N_go_step by lia. apply IH.
  - apply N.div_lt; lia.
  - cbn [number_text]. rewrite pretty_N_char_number, Hs. reflexivity.
Qed.

Lemma pretty_Z_number (z : Z) : number_text (pretty z) = true.
Proof.
  destruct z as [|p|p]; [reflexivity| |].
  - apply pretty_N_go_number. reflexivity.
  - change (pretty (Z.neg p)) with (String "-"%char (pretty_N_go (N.pos p) "")).
    cbn [number_text]. rewrite pretty_N_go_number by reflexivity. reflexivity.
Qed.

Lemma ends_member_not_number (t : string) :
  ends_member t -> exists c rest, t = String c rest /\ number_char c = false.
Proof. intros [rest [-> | ->]]; eexists _, _; split; reflexivity. Qed.

Lemma number_text_inj (a b t1 t2 : string) :
  number_text a = true -> number_text b = true ->
  ends_member t1 -> ends_member t2 ->
  a +:+ t1 = b +:+ t2 -> a = b /\ t1 = t2.
Proof.
  intros Ha Hb H1 H2.
  apply ends_member_not_number in H1 as (c1 & r1 & -> & Hc1).
  apply ends_member_not_number in H2 as (c2 & r2 & -> & Hc2).
  revert b Hb. induction a as [|x a IH]; intros [|y b] Hb H;
    rewrite ?app_cons, ?app_empty in H; cbn [number_text] in Ha, Hb.
  - split; [reflexivity | exact H].
  - injection H as -> _. apply andb_prop in Hb as [Hy _]. congruence.
  - injection H as -> _. apply andb_prop in Ha as [Hx _]. congruence.
  - injection H as -> H. apply andb_prop in Ha as [_ Ha]. apply andb_prop in Hb as [_ Hb].
    destruct (IH Ha b Hb H) as [-> ->]. split; reflexivity.
Qed.

Lemma member_text_inj (e1 e2 : QueryEntry) (t1 t2 : string) :
  is_defined e1 = true -> is_defined e2 = true ->
  ends_member t1 -> ends_member t2 ->
  member_text e1 +:+ t1 = member_text e2 +:+ t2 -> e1 = e2 /\ t1 = t2.
Proof.
  intros D1 D2 E1 E2 H.
  destruct e1 as [[v1|]|[v1|]|[v1|]|[v1|]|[v1|]|[v1|]]; try discriminate D1;
  destruct e2 as [[v2|]|[v2|]|[v2|]|[v2|]|[v2|]|[v2|]]; try discriminate D2;
    unfold member_text in H; cbn [entry_property js_number js_string] in H;
    rewrite !string_app_assoc in H;
    apply json_quote_inj in H as [Hk H]; try discriminate Hk;
    rewrite !app_cons, !app_empty in H; injection H as H.
  1,2: apply number_text_inj in H as [H ->];
    [apply (inj pretty) in H; subst; split; reflexivity
    | apply pretty_Z_number | apply pretty_Z_number | assumption | assumption].
  all: rewrite !string_app_assoc, !app_cons, !app_empty in H;
    apply escaped_text_inj in H as [-> ->]; split; reflexivity.
Qed.

Lemma member_text_head (e : QueryEntry) :
  is_defined e = true -> exists rest, member_text e = String dquote rest.
Proof.
  destruct e as [[v|]|[v|]|[v|]|[v|]|[v|]|[v|]]; intros D; try discriminate D;
    unfold member_text, json_quote; cbn [entry_property js_number js_string];
    rewrite app_cons; eexists; reflexivity.
Qed.

Lemma json_members_text (query : QueryArticlesDto) :
  json_members (query_object query) = map member_text (supplied query).
Proof.
  induction query as [|e q IH]; [reflexivity|].
  destruct e as [[v|]|[v|]|[v|]|[v|]|[v|]|[v|]];
    cbn [query_object map entry_property js_number js_string json_members supplied
         List.filter is_defined];
    rewrite ?bool_decide_eq_true_2 by discriminate;
    rewrite ?bool_decide_eq_false_2 by (intros H; apply H; reflexivity);
    cbn [map]; unfold query_object, supplied in IH; rewrite IH; reflexivity.
Qed.

Lemma tail_text_ends (members : list string) : ends_member (tail_text members).
Proof.
  destruct members as [|m ms]; eexists; [right | left]; reflexivity.
Qed.

Lemma join_with_tail (m : string) (ms : list string) :
  join_with "," (m :: ms) +:+ "}" = m +:+ tail_text ms.
Proof.
  destruct ms as [|m' ms]; [reflexivity|]. cbn [join_with tail_text].
  rewrite !string_app_assoc. reflexivity.
Qed.

Lemma members_inj (q1 q2 : QueryArticlesDto) :
  Forall (fun e => is_defined e = true) q1 ->
  Forall (fun e => is_defined e = true) q2 ->
  join_with "," (map member_text q1) +:+ "}" = join_with "," (map member_text q2) +:+ "}" ->
  q1 = q2.
Proof.
  intros D1. revert q2. induction D1 as [|e1 q1 De1 D1 IH]; intros q2 D2 H;
    destruct D2 as [|e2 q2 De2 D2]; cbn [map] in H.
  - reflexivity.
  - rewrite join_with_tail in H. destruct (member_text_head e2 De2) as [r Hr].
    rewrite Hr in H. discriminate H.
  - rewrite join_with_tail in H. destruct (member_text_head e1 De1) as [r Hr].
    rewrite Hr in H. discriminate H.
  - rewrite !join_with_tail in H.
    apply member_text_inj in H as [-> H]; try assumption; try apply tail_text_ends.
    f_equal. destruct q1 as [|a1 q1], q2 as [|a2 q2]; cbn [map tail_text] in H.
    + reflexivity.
    + discriminate H.
    + discriminate H.
    + apply IH; [assumption|]. rewrite !app_cons, !app_empty in H. injection H as H.
      exact H.
Qed.

Lemma supplied_defined (query : QueryArticlesDto) :
  Forall (fun e => is_defined e = true) (supplied query).
Proof.
  apply Forall_forall. intros e He. apply list_elem_of_In, filter_In in He as [_ He].
  exact He.
Qed.

(** Cache keys do not collide.  Two collection queries have the same key
    exactly when they were supplied with the same properties holding a
    value, in the same order and with the same values; two articles have
    the same key exactly when they have the same identifier; and no
    collection query has the key of an article. *)
Theorem cache_keys_do_not_collide :
  (forall q1 q2 : QueryArticlesDto,
     list_cache_key q1 = list_cache_key q2 <-> supplied q1 = supplied q2)
  /\ (forall k1 k2 : string, article_cache_key k1 = article_cache_key k2 <-> k1 = k2)
  /\ (forall (query : QueryArticlesDto) (key : string),
        list_cache_key query <> article_cache_key key).
Proof.
  split; [|split].
  - intros q1 q2. unfold list_cache_key, JSON_stringify. rewrite !json_members_text. split.
    + intros H. rewrite !app_cons, !app_empty in H. injection H as H.
      apply members_inj in H; [assumption | apply supplied_defined ..].
    + intros ->. reflexivity.
  - intros k1 k2. split; [apply article_cache_key_inj | intros ->; reflexivity].
  - apply key_namespaces_disjoint.
Qed.

(** ** The controller *)

Lemma findOne_resolved (w : World) (key : string) :
  schedule w = [] ->
  exists w1,
    schedule w1 = [] /\ clock w1 = clock w /\ articles w1 = articles w
    /\ findOne key w
       = (match resolved w key with
          | Some v => Ok v
          | None => Throw (NotFoundException ("Article with ID " +:+ key +:+ " not found"))
          end, w1).
Proof.
  intros Hs. unfold resolved.
  destruct (cache w !! article_cache_key key) as [[v ttl]|] eqn:Hc.
  - rewrite (findOne_hit w key v ttl Hs Hc).
    refine (ex_intro _ _ (conj _ (conj _ (conj _ eq_refl))));
      [exact Hs | reflexivity | reflexivity].
  - destruct (find_row key (articles w)) as [r|] eqn:Hr; cbn [fmap option_fmap option_map].
    + rewrite (findOne_miss_found w key r Hs Hc Hr).
      refine (ex_intro _ _ (conj _ (conj _ (conj _ eq_refl))));
        [exact Hs | reflexivity | reflexivity].
    + rewrite (findOne_miss_absent w key Hs Hc Hr).
      refine (ex_intro _ _ (conj _ (conj _ (conj _ eq_refl))));
        [exact Hs | reflexivity | reflexivity].
Qed.

Lemma assign_defined (e : Entity) (dto : UpdateArticleDto) :
  Forall (fun u => entry_value u <> None) dto ->
  is_Some (entity_title e) -> is_Some (entity_description e) ->
  is_Some (entity_publicationDate e) ->
  is_Some (entity_title (foldl assign_entry e dto))
  /\ is_Some (entity_description (foldl assign_entry e dto))
  /\ is_Some (entity_publicationDate (foldl assign_entry e dto)).
Proof.
  intros Hall. revert e. induction Hall as [|u dto Hu Hall IH]; intros e Ht Hd Hp.
  - repeat split; assumption.
  - cbn [foldl]. apply IH;
      destruct u as [[v|]|[v|]|[v|]]; cbn [entry_value] in Hu; try (exfalso; apply Hu; reflexivity);
      cbn [assign_entry entity_title entity_description entity_publicationDate fmap
           option_fmap option_map];
      first [assumption | eexists; reflexivity].
Qed.

Section HealthyMutations.

Variable timestamp_of : string -> Z.

(** In a healthy environment [save] succeeds when the store has the row of
    the entity, and when no property of the request holds [undefined]. *)
Lemma repo_save_healthy (w : World) (a : Article) (dto : UpdateArticleDto) :
  schedule w = [] ->
  find_row (id (columns a)) (articles w) <> None
  \/ Forall (fun u => entry_value u <> None) dto ->
  exists saved w1,
    repo_save timestamp_of (Object_assign a dto) w = (Ok saved, w1) /\ schedule w1 = [].
Proof.
  intros Hs Hok. rewrite repo_save_served by assumption.
  destruct (Object_assign_fixed a dto) as (-> & _).
  destruct (find_row (id (columns a)) (articles w)) as [stored|] eqn:Hf.
  - destruct (bool_decide _); eexists _, _; split; first [reflexivity | exact Hs].
  - destruct Hok as [Hok|Hok]; [exfalso; apply Hok; reflexivity|].
    destruct (assign_defined (of_article a) dto Hok) as ([t Ht] & [d Hd] & [p Hp]);
      try (eexists; reflexivity).
    unfold new_row, Object_assign. rewrite Ht, Hd, Hp.
    eexists _, _; split; first [reflexivity | exact Hs].
Qed.

Lemma update_healthy_result (w : World) (key userId : string) (dto : UpdateArticleDto) :
  schedule w = [] -> hasFields dto = true ->
  match resolved w key with
  | Some (AnArticle a) =>
    if bool_decide (authorId (columns a) = userId)
    then
      find_row (id (columns a)) (articles w) <> None
      \/ Forall (fun u => entry_value u <> None) dto ->
      exists updated, fst (update timestamp_of key dto userId w) = Ok updated
    else fst (update timestamp_of key dto userId w) = Throw update_forbidden
  | Some (APage _) => fst (update timestamp_of key dto userId w) = Throw update_forbidden
  | None =>
    fst (update timestamp_of key dto userId w)
    = Throw (NotFoundException ("Article with ID " +:+ key +:+ " not found"))
  end.
Proof.
  intros Hs Hf. destruct (findOne_resolved w key Hs) as (w1 & Hs1 & Hk1 & Ha1 & Hr).
  rewrite (update_after_findOne timestamp_of w w1 key dto userId _ Hf Hr).
  destruct (resolved w key) as [[a|p]|]; try reflexivity.
  destruct (bool_decide (authorId (columns a) = userId)); [|reflexivity].
  intros Hok. rewrite <- Ha1 in Hok.
  destruct (repo_save_healthy w1 a dto Hs1 Hok) as (saved & w2 & Hsave & Hs2).
  unfold bind. rewrite Hsave. unfold invalidateArticleCache.
  rewrite cache_del_served by assumption. eexists. reflexivity.
Qed.

Lemma remove_healthy_result (w : World) (key userId : string) :
  schedule w = [] ->
  fst (remove key userId w)
  = match resolved w key with
    | Some (AnArticle a) =>
      if bool_decide (authorId (columns a) = userId) then Ok tt else Throw remove_forbidden
    | Some (APage _) => Throw remove_forbidden
    | None => Throw (NotFoundException ("Article with ID " +:+ key +:+ " not found"))
    end.
Proof.
  intros Hs. destruct (findOne_resolved w key Hs) as (w1 & Hs1 & Hk1 & _ & Hr).
  rewrite (remove_after_findOne w w1 key userId _ Hr).
  destruct (resolved w key) as [[a|p]|]; try reflexivity.
  destruct (bool_decide (authorId (columns a) = userId)); [|reflexivity].
  unfold bind. rewrite repo_remove_served by assumption. unfold invalidateArticleCache.
  rewrite cache_del_served by (world; assumption). reflexivity.
Qed.


End HealthyMutations.

Section ControllerProperties.

Variable timestamp_of : string -> Z.
Variable Request : Type.
Variable JwtAuthGuard : Request -> option string.
Variable ParseUUIDPipe : string -> bool.

(** The status of a mutation.  In a healthy environment, for a user the
    guard accepts and a well-formed identifier, [DELETE] of an article that
    exists answers 204 to its author and 403 to anyone else, and 404 when
    neither the cache nor the store knows the identifier; [PATCH] with at
    least one field set answers 403 and 404 in the same cases, and 200 to
    the author when the store has the row of the article or no property of
    the request holds [undefined]. *)
Theorem mutation_status (w : World) (req : Request) (userId key : string)
    (dto : UpdateArticleDto) :
  let PATCH :=
    ArticlesController.update timestamp_of Request JwtAuthGuard ParseUUIDPipe in
  let DELETE := ArticlesController.remove Request JwtAuthGuard ParseUUIDPipe in
  schedule w = [] ->
  JwtAuthGuard req = Some userId ->
  ParseUUIDPipe key = true ->
  ~ all_unset dto ->
  match resolved w key with
  | Some (AnArticle a) =>
    if bool_decide (authorId (columns a) = userId) then
      fst (DELETE key req w) = Sent 204 tt
      /\ (find_row (id (columns a)) (articles w) <> None
          \/ Forall (fun u => entry_value u <> None) dto ->
          exists updated, fst (PATCH key dto req w) = Sent 200 updated)
    else fst (DELETE key req w) = Failed 403 /\ fst (PATCH key dto req w) = Failed 403
  | Some (APage _) =>
    fst (DELETE key req w) = Failed 403 /\ fst (PATCH key dto req w) = Failed 403
  | None => fst (DELETE key req w) = Failed 404 /\ fst (PATCH key dto req w) = Failed 404
  end.
Proof.
  cbv zeta. intros Hs Hg Hp Hf. apply hasFields_true in Hf.
  pose proof (update_healthy_result timestamp_of w key userId dto Hs Hf) as Hu.
  pose proof (remove_healthy_result w key userId Hs) as Hr.
  unfold ArticlesController.update, ArticlesController.remove,
    ArticlesController.UseGuards, ArticlesController.Param, respond.
  rewrite Hg, Hp.
  destruct (update timestamp_of key dto userId w) as [ru wu].
  destruct (remove key userId w) as [rr wr]. cbn [fst] in Hu, Hr. subst rr.
  destruct (resolved w key) as [[a|p]|]; try (subst ru; split; reflexivity).
  destruct (bool_decide (authorId (columns a) = userId));
    [|subst ru; split; reflexivity].
  split; [reflexivity|]. intros Hok. destruct (Hu Hok) as [updated ->].
  eexists. reflexivity.
Qed.


End ControllerProperties.

(** ** The further properties at work on the sample worlds *)

Lemma update_served_to_owner (timestamp_of : string -> Z) (w : World) (key userId : string)
    (dto : UpdateArticleDto) (a : Article) (ttl : Z) :
  schedule w = [] ->
  cache w !! article_cache_key key = Some (AnArticle a, ttl) ->
  authorId (columns a) = userId ->
  hasFields dto = true ->
  find_row (id (columns a)) (articles w) <> None
  \/ Forall (fun u => entry_value u <> None) dto ->
  exists updated w',
    update timestamp_of key dto userId w = (Ok updated, w') /\ schedule w' = [].
Proof.
  intros Hs Hc Ha Hf Hok. pose proof (findOne_hit w key _ _ Hs Hc) as Hr.
  rewrite (update_after_findOne timestamp_of w _ key dto userId _ Hf Hr).
  rewrite bool_decide_eq_true_2 by assumption. unfold bind, invalidateArticleCache.
  destruct (repo_save_healthy timestamp_of
              (logged [CacheGet (article_cache_key key)] w) a dto Hs Hok)
    as (saved & w2 & Hsave & Hs2).
  rewrite Hsave, cache_del_served by assumption.
  eexists _, _. split; [reflexivity | exact Hs2].
Qed.

Lemma warm_world_well_keyed : well_keyed (cache warm_world).
Proof.
  apply well_keyed_insert_page.
  apply (well_keyed_insert_article _ (sample_article 0)), well_keyed_empty.
Qed.

Lemma warm_world_row :
  find_row "article-0" (articles warm_world) = Some (sample_row 0).
Proof. vm_compute. reflexivity. Qed.

(** The author sends [partial_update] for article 0 of the warm world. *)
Lemma warm_world_partial_update :
  update day_stamp "article-0" partial_update "user-123" warm_world
  = (Ok partially_updated,
     snd (update day_stamp "article-0" partial_update "user-123" warm_world))
  /\ schedule (snd (update day_stamp "article-0" partial_update "user-123" warm_world))
     = [].
Proof.
  pose proof (findOne_hit warm_world "article-0" _ _ eq_refl warm_world_article) as Hf.
  rewrite (update_after_findOne day_stamp warm_world _ "article-0" partial_update
             "user-123" _ eq_refl Hf).
  cbv beta iota. rewrite bool_decide_eq_true_2 by reflexivity.
  unfold bind, invalidateArticleCache.
  rewrite repo_save_served by reflexivity.
  assert (find_row (entity_id (Object_assign (sample_article 0) partial_update))
            (articles (logged [CacheGet (article_cache_key "article-0")] warm_world))
          = Some (sample_row 0)) as -> by (vm_compute; reflexivity).
  assert (bool_decide
            (written_row day_stamp (Object_assign (sample_article 0) partial_update)
               (sample_row 0) = sample_row 0) = false) as ->
    by (vm_compute; reflexivity).
  rewrite cache_del_served by reflexivity. cbn [ret snd].
  split; reflexivity.
Qed.

(** An article that is in the cache only: the author's [PATCH] with a
    title holding [undefined] is answered with status 500, for [save] has
    to insert the row and the row has no title. *)
Lemma patch_of_an_article_without_row :
  resolved orphan_world (id mock_row) = Some (AnArticle (with_author [john] mock_row))
  /\ find_row (id mock_row) (articles orphan_world) = None
  /\ fst (ArticlesController.update day_stamp (option string) bearer_guard uuid_shaped
            (id mock_row) partial_update (Some "user-123") orphan_world)
     = Failed 500.
Proof.
  assert (cache orphan_world !! article_cache_key (id mock_row)
          = Some (AnArticle (with_author [john] mock_row), TTL)) as Hc
    by apply lookup_insert_eq.
  split; [unfold resolved; rewrite Hc; reflexivity|]. split; [reflexivity|].
  pose proof (findOne_hit orphan_world (id mock_row) _ _ eq_refl Hc) as Hf.
  unfold ArticlesController.update, ArticlesController.UseGuards,
    ArticlesController.Param, respond, bearer_guard.
  assert (uuid_shaped (id mock_row) = true) as -> by (vm_compute; reflexivity).
  rewrite (update_after_findOne day_stamp _ _ (id mock_row) partial_update
             "user-123" _ eq_refl Hf).
  cbv beta iota. rewrite bool_decide_eq_true_2 by reflexivity.
  unfold bind. rewrite repo_save_served by reflexivity. reflexivity.
Qed.

Lemma cache_stays_well_keyed_witness :
  well_keyed (cache warm_world)
  /\ well_keyed (cache (snd (findOne "article-7" warm_world)))
  /\ well_keyed
       (cache (snd (update day_stamp "article-0" sample_update "user-123" warm_world))).
Proof.
  destruct (cache_stays_well_keyed day_stamp warm_world warm_world_well_keyed)
    as (H1 & _ & _ & H4 & _).
  split; [exact warm_world_well_keyed|]. split; [apply H1 | apply H4].
Defined.

Lemma repeated_read_is_served_by_the_cache_witness :
  exists v w1,
    findOne "article-0" (sample_world 1) = (Ok v, w1)
    /\ schedule w1 = []
    /\ findOne "article-0" w1 = (Ok v, logged [CacheGet (article_cache_key "article-0")] w1).
Proof.
  assert (find_row "article-0" (articles (sample_world 1)) = Some (sample_row 0)) as Hr
    by (vm_compute; reflexivity).
  pose proof (findOne_miss_found (sample_world 1) "article-0" (sample_row 0)
                eq_refl (lookup_empty _) Hr) as Hf.
  match type of Hf with
  | _ = (Ok ?v, ?w1) =>
    exists v, w1; split; [exact Hf|]; split; [reflexivity|];
    exact (proj1 (repeated_read_is_served_by_the_cache day_stamp (sample_world 1) w1 v
                    eq_refl) "article-0" Hf)
  end.
Defined.

Lemma update_then_get_witness :
  exists row,
    fst (findOne "article-0"
           (snd (update day_stamp "article-0" partial_update "user-123" warm_world)))
    = Ok (AnArticle
            (with_author
               (users (snd (update day_stamp "article-0" partial_update "user-123"
                              warm_world)))
               row))
    /\ title row = "Test Article"
    /\ description row = "New"
    /\ publicationDate row = 20240101
    /\ authorId row = "user-123".
Proof.
  destruct warm_world_partial_update as [Hu Hs].
  destruct (update_then_get day_stamp warm_world _ "article-0" "user-123" partial_update
              partially_updated warm_world_well_keyed Hu Hs)
    as (row & Hread & _ & _ & Hauthor & _ & Hd & Hp & Hkept).
  destruct (Hkept (sample_row 0) warm_world_row) as (Ht & _).
  exists row. split; [exact Hread|].
  split; [exact (Ht eq_refl)|]. split; [exact (Hd "New" eq_refl)|].
  split; [exact (Hp (DateObject 20240101) eq_refl) | exact Hauthor].
Defined.

Lemma remove_then_get_witness :
  is_not_found
    (fst (findOne "article-0" (snd (remove "article-0" "user-123" warm_world)))).
Proof.
  destruct warm_world_remove as (Hr & Hs & _).
  exact (remove_then_get warm_world _ "article-0" "user-123" warm_world_well_keyed Hr Hs).
Defined.

Lemma mutation_touches_one_row_witness :
  users (snd (remove "article-0" "user-123" warm_world)) = users warm_world
  /\ find_row "article-7" (articles (snd (remove "article-0" "user-123" warm_world)))
     = find_row "article-7" (articles warm_world)
  /\ find_row "article-7"
       (articles (snd (update day_stamp "article-0" sample_update "user-123" warm_world)))
     = find_row "article-7" (articles warm_world).
Proof.
  destruct warm_world_remove as (Hr & _). destruct warm_world_update as (Hu & _).
  destruct (mutation_touches_one_row day_stamp warm_world _ "article-0" "user-123"
              sample_update updated_article warm_world_well_keyed (or_intror Hr))
    as [Hus Hrows].
  destruct (mutation_touches_one_row day_stamp warm_world _ "article-0" "user-123"
              sample_update updated_article warm_world_well_keyed (or_introl Hu))
    as [_ Hrows'].
  split; [exact Hus|]. split; [apply Hrows | apply Hrows']; discriminate.
Defined.

Lemma cached_pages_survive_mutations_witness :
  findAll day_stamp []
    (snd (update day_stamp "article-0" sample_update "user-123" warm_world))
  = (Ok (APage sample_page),
     logged [CacheGet (list_cache_key [])]
       (snd (update day_stamp "article-0" sample_update "user-123" warm_world))).
Proof.
  destruct warm_world_update as (Hu & Hs & _).
  exact (cached_pages_survive_mutations day_stamp warm_world _ "article-0" "user-123"
           sample_update updated_article sample_dto [] (APage sample_page) TTL
           (or_introl Hu) Hs warm_world_page).
Defined.

Lemma cold_world_article :
  resolved (sample_world 1) "article-0" = Some (AnArticle (sample_article 0)).
Proof. vm_compute. reflexivity. Qed.

Lemma refused_mutation_keeps_the_store_witness :
  fst (remove "article-0" "different-user" (sample_world 1)) = Throw remove_forbidden
  /\ same_store (sample_world 1)
       (snd (remove "article-0" "different-user" (sample_world 1))).
Proof.
  pose proof (remove_healthy_result (sample_world 1) "article-0" "different-user" eq_refl)
    as Hr.
  rewrite cold_world_article in Hr.
  rewrite bool_decide_eq_false_2 in Hr by discriminate.
  split; [exact Hr|].
  apply (refused_mutation_keeps_the_store day_stamp (sample_world 1) _ "article-0"
           "different-user" sample_update remove_forbidden).
  - right. apply injective_projections; [exact Hr | reflexivity].
  - discriminate.
Defined.

Lemma update_changes_supplied_fields_only_witness :
  fst (update day_stamp "article-0" partial_update "user-123" warm_world)
  = Ok partially_updated
  /\ entity_title partially_updated = None
  /\ entity_description partially_updated = Some "New"
  /\ entity_publicationDate partially_updated = Some (DateObject 20240101)
  /\ entity_authorId partially_updated = "user-123".
Proof.
  destruct warm_world_partial_update as [Hu _].
  destruct (update_changes_supplied_fields_only day_stamp warm_world _ "article-0"
              "user-123" partial_update partially_updated Hu)
    as (a & Ha & _ & Hau & _ & _ & _ & Ht & Hd & Hp).
  rewrite (findOne_hit warm_world "article-0" _ _ eq_refl warm_world_article) in Ha.
  injection Ha as <-.
  split; [rewrite Hu; reflexivity|].
  split; [exact Ht|]. split; [exact Hd|]. split; [exact Hp | exact Hau].
Defined.

Lemma failed_invalidation_keeps_the_write_witness :
  (exists e,
     fst (update day_stamp "article-0" sample_update "user-123"
            (with_schedule [Served; Served; Rejected] warm_world))
     = Throw e /\ http_status e = 500)
  /\ exists row,
      find_row "article-0"
        (articles (snd (update day_stamp "article-0" sample_update "user-123"
                          (with_schedule [Served; Served; Rejected] warm_world))))
      = Some row
      /\ title row = "Updated Title".
Proof.
  destruct (failed_invalidation_keeps_the_write day_stamp
              (with_schedule [Served; Served; Rejected] warm_world) "article-0" "user-123"
              sample_update (sample_article 0) TTL (sample_row 0) warm_world_article
              eq_refl sample_update_sets_a_field warm_world_row eq_refl)
    as (Hfail & row & Hrow & Ht & _).
  split; [exact Hfail|]. exists row. split; [exact Hrow|]. apply Ht. reflexivity.
Defined.

Lemma page_is_ordered_and_matching_witness :
  exists result : PageResult,
    fst (findAll day_stamp [QAuthorId (Some "user-123")] (sample_world 3))
    = Ok (APage result)
    /\ StronglySorted (fun x y => newer_first (columns x) (columns y)) (data result).
Proof.
  destruct (page_is_ordered_and_matching day_stamp (sample_world 3)
              [QAuthorId (Some "user-123")] eq_refl (lookup_empty _))
    as (result & Hr & Hsorted & _).
  exists result. split; assumption.
Defined.

Lemma pages_cut_the_ranking_witness :
  exists result : PageResult,
    fst (findAll day_stamp [QPage (Some 2); QLimit (Some 2)] (sample_world 5))
    = Ok (APage result)
    /\ data result !! 0%nat = Some (sample_article 2)
    /\ data result !! 1%nat = Some (sample_article 1)
    /\ data result !! 2%nat = None.
Proof.
  destruct (pages_cut_the_ranking day_stamp (sample_world 5)
              [QPage (Some 2); QLimit (Some 2)] 2 2
              [sample_row 4; sample_row 3; sample_row 2; sample_row 1; sample_row 0]
              eq_refl (lookup_empty _))
    as (result & Hr & Hat & Hout & _).
  - left. split; [left; reflexivity|].
    intros v [H|[H|[]]]; [injection H as ->; reflexivity | discriminate H].
  - left. split; [right; left; reflexivity|].
    intros v [H|[H|[]]]; [discriminate H | injection H as ->; reflexivity].
  - lia.
  - lia.
  - apply (bool_decide_unpack _). vm_compute. exact I.
  - symmetry.
    apply (Permutation_rev
             [sample_row 0; sample_row 1; sample_row 2; sample_row 3; sample_row 4]).
  - repeat constructor; unfold newer_first; cbn [sample_row publicationDate]; lia.
  - exists result. split; [exact Hr|].
    split; [rewrite (Hat 0%nat) by lia; reflexivity|].
    split; [rewrite (Hat 1%nat) by lia; reflexivity|].
    apply Hout. lia.
Defined.

Lemma mock_world_article :
  resolved mock_world "123e4567-e89b-12d3-a456-426614174000"
  = Some (AnArticle (with_author [john] mock_row)).
Proof. vm_compute. reflexivity. Qed.

Lemma mutation_status_witness :
  fst (ArticlesController.remove (option string) bearer_guard uuid_shaped
         "123e4567-e89b-12d3-a456-426614174000" (Some "user-123") mock_world)
  = Sent 204 tt
  /\ (exists updated,
        fst (ArticlesController.update day_stamp (option string) bearer_guard uuid_shaped
               "123e4567-e89b-12d3-a456-426614174000" sample_update (Some "user-123")
               mock_world)
        = Sent 200 updated)
  /\ fst (ArticlesController.remove (option string) bearer_guard uuid_shaped
            "123e4567-e89b-12d3-a456-426614174000" (Some "different-user") mock_world)
     = Failed 403
  /\ fst (ArticlesController.remove (option string) bearer_guard uuid_shaped
            "123e4567-e89b-12d3-a456-426614174999" (Some "user-123") mock_world)
     = Failed 404.
Proof.
  pose proof (mutation_status day_stamp (option string) bearer_guard uuid_shaped mock_world
                (Some "user-123") "user-123" "123e4567-e89b-12d3-a456-426614174000"
                sample_update eq_refl eq_refl eq_refl sample_update_sets_a_field) as H1.
  pose proof (mutation_status day_stamp (option string) bearer_guard uuid_shaped mock_world
                (Some "different-user") "different-user"
                "123e4567-e89b-12d3-a456-426614174000"
                sample_update eq_refl eq_refl eq_refl sample_update_sets_a_field) as H2.
  pose proof (mutation_status day_stamp (option string) bearer_guard uuid_shaped mock_world
                (Some "user-123") "user-123" "123e4567-e89b-12d3-a456-426614174999"
                sample_update eq_refl eq_refl eq_refl sample_update_sets_a_field) as H3.
  cbv zeta in H1, H2, H3.
  assert (resolved mock_world "123e4567-e89b-12d3-a456-426614174999" = None) as Hnone
    by (vm_compute; reflexivity).
  rewrite mock_world_article in H1, H2. rewrite Hnone in H3.
  rewrite bool_decide_eq_true_2 in H1 by reflexivity.
  rewrite bool_decide_eq_false_2 in H2 by discriminate.
  destruct H1 as [H1 H1']. destruct H2 as [H2 _]. destruct H3 as [H3 _].
  split; [exact H1|].
  split; [apply H1'; left; vm_compute; discriminate|].
  split; [exact H2 | exact H3].
Defined.


Lemma reads_return_what_they_promise_witness :
  exists a,
    fst (findOne "article-0" warm_world) = Ok (AnArticle a)
    /\ id (columns a) = "article-0".
Proof.
  pose proof (findOne_hit warm_world "article-0" _ _ eq_refl warm_world_article) as Hf.
  destruct (proj1 (reads_return_what_they_promise day_stamp warm_world _ _
                     warm_world_well_keyed) "article-0" Hf) as (a & Ha & Hid).
  exists a. rewrite Hf. cbn [fst]. split; [rewrite Ha; reflexivity | exact Hid].
Defined.
